(** * Tensorforce: optimizer combinators, distributions, layers and models

    A shallow embedding of the parts of the Tensorforce sources that the
    specification speaks about, and the properties proved of them.

    - [Py]    : the Python values, exceptions and results the sources use.
    - [TF]    : TensorFlow graphs as [Plus.step] builds them: ops, their
                data and control inputs, the stack of
                [tf.control_dependencies] blocks, the values of tensors
                and the orders a graph may execute in.
    - [TFOps] : the tensor functions the model calls ([tf.reduce_mean],
                [tf.add_n], [tf.nn.moments], [tf.scan], ...).
    - [Core]  : what the sources read of [TensorSpec] and
                [TensorforceError].
    - one module per source file below [tensorforce/].  The [tf_function]
      decorator is taken to call the method it wraps.

    Numbers are exact rationals ([Q]), with the infinities and NaN where
    a float can be one; the rounding of floats is not part of the model. *)

From stdpp Require Import base option list strings gmap sorting.
From Stdlib Require Import ZArith QArith Qminmax Lia.

Close Scope Q_scope.
Close Scope Z_scope.
Local Open Scope string_scope.
Local Open Scope list_scope.

(** ** Python values, exceptions, results *)

Module Py.

(** The exception classes that occur in the sources, with the builtin
    classes they derive from. *)
Inductive ExcClass : Type :=
| BaseException
| Exception
| ArithmeticError
| FloatingPointError
| OverflowError
| ZeroDivisionError
| AssertionError
| AttributeError
| LookupError
| KeyError
| RuntimeError
| NotImplementedError
| RecursionError
| TypeError
| ValueError
| TensorforceError.

#[global] Instance ExcClass_eq_dec : EqDecision ExcClass.
Proof. solve_decision. Defined.

(** The direct base class (Python's builtin hierarchy; [TensorforceError]
    derives from [Exception]). *)
Definition base_class (c : ExcClass) : option ExcClass :=
  match c with
  | BaseException => None
  | Exception => Some BaseException
  | ArithmeticError => Some Exception
  | FloatingPointError => Some ArithmeticError
  | OverflowError => Some ArithmeticError
  | ZeroDivisionError => Some ArithmeticError
  | AssertionError => Some Exception
  | AttributeError => Some Exception
  | LookupError => Some Exception
  | KeyError => Some LookupError
  | RuntimeError => Some Exception
  | NotImplementedError => Some RuntimeError
  | RecursionError => Some RuntimeError
  | TypeError => Some Exception
  | ValueError => Some Exception
  | TensorforceError => Some Exception
  end.

(** The chain of classes from [c] up to the root; the hierarchy is at
    most four deep. *)
Fixpoint mro_fuel (n : nat) (c : ExcClass) : list ExcClass :=
  match n with
  | O => [c]
  | S n' => c :: match base_class c with
                 | Some b => mro_fuel n' b
                 | None => []
                 end
  end.

Definition mro (c : ExcClass) : list ExcClass := mro_fuel 4 c.

Definition issubclass (c d : ExcClass) : bool := bool_decide (d ∈ mro c).

(** Python values as far as the sources build or compare them. *)
#[warnings="-register-all"] Inductive Value : Type :=
| PyNone
| PyBool (b : bool)
| PyInt (z : Z)
| PyFloat (q : Q)
| PyInf (negative : bool)        (* [float('inf')], [float('-inf')] *)
| PyNaN                          (* [float('nan')] *)
| PyStr (s : string)
| PyDict (items : list (string * Value))
| PyObject (id : nat).

(** [dict(k1=v1, ...)] *)
Definition dict (items : list (string * Value)) : Value := PyDict items.

(** [v is None] *)
Definition is_none (v : Value) : bool :=
  match v with PyNone => true | _ => false end.

(** [v == 's'] for a string literal ['s']. *)
Definition eq_str (v : Value) (s : string) : bool :=
  match v with PyStr s' => String.eqb s' s | _ => false end.

Record Exc : Type := mkExc { exc_class : ExcClass; exc_args : list Value }.

(** [isinstance(e, c)], the test of [except c]. *)
Definition isinstance (e : Exc) (c : ExcClass) : bool :=
  issubclass (exc_class e) c.

(** The outcome of a call: a value, or a raised exception. *)
Inductive Result (A : Type) : Type :=
| Ok (a : A)
| Raise (e : Exc).
Arguments Ok {A} a.
Arguments Raise {A} e.

Definition bind {A B} (m : Result A) (k : A -> Result B) : Result B :=
  match m with
  | Ok a => k a
  | Raise e => Raise e
  end.

(** [assert b] *)
Definition assert (b : bool) : Result unit :=
  if b then Ok tt else Raise (mkExc AssertionError []).

End Py.

Import Py.

Notation "'do' x <- m ; k" := (Py.bind m (fun x => k))
  (at level 10, x name, m at level 100, k at level 200).
Notation "'do_' m ; k" := (Py.bind m (fun _ => k))
  (at level 10, m at level 100, k at level 200).

(** ** TensorFlow: graphs, control dependencies, tensor functions *)

Module TF.

(** A tensor is named by the op that produces it: its index in the graph. *)
Abbreviation Tensor := nat (only parsing).

(** *** The stack of control-dependency blocks *)

(** One [with tf.control_dependencies(...)] block that is open: the
    control inputs it adds, and the ops created while it was open
    ([_seen_nodes]). *)
Record Controller : Type := mkController {
  control_inputs : list Tensor;
  seen_nodes : list Tensor
}.

Definition op_in_group (c : Controller) (t : Tensor) : bool :=
  bool_decide (t ∈ seen_nodes c).

Definition add_op (t : Tensor) (c : Controller) : Controller :=
  mkController (control_inputs c) (t :: seen_nodes c).

(** The graph's [_control_dependencies_stack], innermost block first. *)
Abbreviation Stack := (list Controller).

(** [Graph._current_control_dependencies] *)
Definition current_control_dependencies (stack : Stack) : list Tensor :=
  stack ≫= control_inputs.

(** The control inputs [Graph.control_dependencies] gives the new block:
    those of the argument that no open block has yet, each once. *)
Fixpoint control_ops (current : list Tensor) (cs : list Tensor) : list Tensor :=
  match cs with
  | [] => []
  | c :: rest =>
      if bool_decide (c ∈ current) then control_ops current rest
      else c :: control_ops (c :: current) rest
  end.

(** Entering [with tf.control_dependencies(cs)]. *)
Definition enter (cs : list Tensor) (stack : Stack) : Stack :=
  mkController (control_ops (current_control_dependencies stack) cs) [] :: stack.

(** [Graph._control_dependencies_for_inputs]: the control inputs a new op
    with the data inputs [input_ops] receives.  A block one of whose seen
    ops is a data input adds nothing; another block adds those of its
    control inputs that are not data inputs of the op.  The blocks are
    gone through from the outermost to the innermost. *)
Definition control_dependencies_for_inputs (stack : Stack)
    (input_ops : list Tensor) : list Tensor :=
  reverse stack ≫= (fun c =>
    if existsb (op_in_group c) input_ops then []
    else filter (fun t => t ∉ input_ops) (control_inputs c)).

(** [Graph._record_op_seen_by_control_dependencies] *)
Definition record_op_seen_by_control_dependencies (t : Tensor) (stack : Stack)
    : Stack :=
  add_op t <$> stack.

(** The stack after the ops [news] (latest first) have been recorded. *)
Definition record_ops (news : list Tensor) (stack : Stack) : Stack :=
  (fun c => mkController (control_inputs c) (news ++ seen_nodes c)) <$> stack.

Section Graph.

(** The values tensors take, and the addition [+] of two of them. *)
Variable V : Type.
Variable add : V -> V -> V.

Inductive OpKind : Type :=
| AddV2                          (* [x + y] *)
| Other (f : list V -> V).       (* any other op, as a function of its inputs *)

Record Op : Type := mkOp {
  op_kind : OpKind;
  op_inputs : list Tensor;
  op_control_inputs : list Tensor
}.

(** A graph is the list of its ops in the order of their creation. *)
Local Abbreviation Graph := (list Op).

(** Graph-building code: what a Python function that constructs ops and
    returns a list of tensors does to the default graph.  The argument of
    [ControlDependencies] is that of [tf.control_dependencies]: a list of
    tensors, or [None]. *)
Inductive Build : Type :=
| Return (ts : list Tensor)
| CreateOp (k : OpKind) (inputs : list Tensor) (cont : Tensor -> Build)
| ControlDependencies (control_inputs : option (list Tensor)) (body : Build)
                      (cont : list Tensor -> Build).

Fixpoint bind (m : Build) (k : list Tensor -> Build) : Build :=
  match m with
  | Return ts => k ts
  | CreateOp kind ins cont => CreateOp kind ins (fun t => bind (cont t) k)
  | ControlDependencies cs body cont =>
      ControlDependencies cs body (fun r => bind (cont r) k)
  end.

(** Running graph-building code on the stack of open blocks [stack] and
    the graph [g].  A new op receives its control inputs from the open
    blocks and is recorded as seen by each of them.  A block with a list
    is pushed for its body and popped after it; a block with [None] runs
    its body on a stack of its own and puts the old stack back. *)
Fixpoint run (m : Build) (stack : Stack) (g : Graph)
    : list Tensor * Stack * Graph :=
  match m with
  | Return ts => (ts, stack, g)
  | CreateOp k ins cont =>
      let op := mkOp k ins (control_dependencies_for_inputs stack ins) in
      run (cont (length g))
          (record_op_seen_by_control_dependencies (length g) stack)
          (g ++ [op])
  | ControlDependencies (Some cs) body cont =>
      let '(r, stack', g') := run body (enter cs stack) g in
      run (cont r) (tail stack') g'
  | ControlDependencies None body cont =>
      let '(r, _, g') := run body [mkController [] []] g in
      run (cont r) stack g'
  end.

(** Code that never opens [tf.control_dependencies(None)]. *)
Fixpoint no_clear (m : Build) : Prop :=
  match m with
  | Return _ => True
  | CreateOp _ _ cont => forall t, no_clear (cont t)
  | ControlDependencies (Some _) body cont =>
      no_clear body /\ forall r, no_clear (cont r)
  | ControlDependencies None _ _ => False
  end.

(** *** Data flow: the value of each tensor *)

Definition eval_op (vals : list (option V)) (o : Op) : option V :=
  ins ← mapM (fun t => mjoin (vals !! t)) (op_inputs o);
  match op_kind o with
  | AddV2 => match ins with
             | [a; b] => Some (add a b)
             | _ => None
             end
  | Other f => Some (f ins)
  end.

Definition eval_graph (g : Graph) : list (option V) :=
  foldl (fun vals o => vals ++ [eval_op vals o]) [] g.

Definition value (g : Graph) (t : Tensor) : option V :=
  mjoin (eval_graph g !! t).

(** *** Control flow: the orders in which a graph may execute *)

(** What must have run before op [i] starts: its data inputs and its
    control inputs. *)
Definition dependencies (g : Graph) (i : Tensor) : list Tensor :=
  match g !! i with
  | Some o => op_inputs o ++ op_control_inputs o
  | None => []
  end.

(** [depends_on g a c]: op [a] needs op [c], directly or through other
    ops (or is [c]). *)
Inductive depends_on (g : Graph) : Tensor -> Tensor -> Prop :=
| depends_refl a : depends_on g a a
| depends_step a b c :
    b ∈ dependencies g a -> depends_on g b c -> depends_on g a c.

(** [needs g a c]: op [a] needs op [c] through one dependency at least. *)
Definition needs (g : Graph) (a c : Tensor) : Prop :=
  exists b, b ∈ dependencies g a /\ depends_on g b c.

(** Every op a block has seen needs every control input of the block. *)
Definition controller_ok (g : Graph) (c : Controller) : Prop :=
  forall i d, i ∈ seen_nodes c -> d ∈ control_inputs c -> needs g i d.

Definition stack_ok (g : Graph) (stack : Stack) : Prop :=
  Forall (controller_ok g) stack.

(** [schedule g done s]: after the ops [done] have run, the ops [s] can
    run one after the other in this order: each is an op of [g], has not
    run yet, and all its dependencies have run. *)
Fixpoint schedule (g : Graph) (done : list Tensor) (s : list Tensor) : bool :=
  match s with
  | [] => true
  | i :: rest =>
      bool_decide (i < length g)
      && bool_decide (i ∉ done)
      && forallb (fun d => bool_decide (d ∈ done)) (dependencies g i)
      && schedule g (i :: done) rest
  end.

(** [runs_before s a b]: in the execution [s], [a] has run when [b] starts. *)
Definition runs_before (s : list Tensor) (a b : Tensor) : Prop :=
  exists s1 s2, s = s1 ++ b :: s2 /\ a ∈ s1.

End Graph.

(** A graph is the list of its ops in the order of their creation. *)
Abbreviation Graph V := (list (Op V)).

Arguments AddV2 {V}.
Arguments Other {V} f.
Arguments mkOp {V} _ _ _.
Arguments op_kind {V} _.
Arguments op_inputs {V} _.
Arguments op_control_inputs {V} _.
Arguments Return {V} ts.
Arguments CreateOp {V} k inputs cont.
Arguments ControlDependencies {V} control_inputs body cont.
Arguments bind {V} m k.
Arguments run {V} m stack g.
Arguments no_clear {V} m.
Arguments eval_op {V} add vals o.
Arguments eval_graph {V} add g.
Arguments value {V} add g t.
Arguments dependencies {V} g i.
Arguments depends_on {V} g _ _.
Arguments needs {V} g a c.
Arguments controller_ok {V} g c.
Arguments stack_ok {V} g stack.
Arguments schedule {V} g done s.
Arguments record_ops : simpl never.

End TF.

(** *** Facts about graph construction, data flow and execution order *)

Module TFFacts.
Import TF.

Lemma record_ops_nil stack : record_ops [] stack = stack.
Proof.
  unfold record_ops. induction stack as [| [cs seen] stack IH]; [done |].
  rewrite fmap_cons. f_equal. exact IH.
Qed.

Lemma record_ops_app news1 news2 stack :
  record_ops news2 (record_ops news1 stack) = record_ops (news2 ++ news1) stack.
Proof.
  unfold record_ops. rewrite <- list_fmap_compose.
  apply list_fmap_ext. intros _ c _. simpl. by rewrite app_assoc.
Qed.

Lemma record_ops_enter news cs stack :
  record_ops news (enter cs stack)
  = mkController (control_ops (current_control_dependencies stack) cs) news
    :: record_ops news stack.
Proof.
  unfold record_ops, enter. rewrite fmap_cons. simpl. by rewrite app_nil_r.
Qed.

Lemma record_op_seen_record_ops t stack :
  record_op_seen_by_control_dependencies t stack = record_ops [t] stack.
Proof. done. Qed.

(** A control input of the argument is one of the new block or of a block
    that is open already. *)
Lemma control_ops_elem current cs d :
  d ∈ cs -> d ∈ control_ops current cs \/ d ∈ current.
Proof.
  revert current. induction cs as [| c rest IH]; intros current Hd.
  - by apply elem_of_nil in Hd.
  - simpl. destruct (bool_decide (c ∈ current)) eqn:E.
    + apply bool_decide_eq_true_1 in E.
      apply elem_of_cons in Hd as [-> | Hd]; [by right | by apply IH].
    + apply elem_of_cons in Hd as [-> | Hd].
      * left. apply elem_of_cons. by left.
      * destruct (IH (c :: current) Hd) as [H | H].
        -- left. apply elem_of_cons. by right.
        -- apply elem_of_cons in H as [-> | H]; [| by right].
           left. apply elem_of_cons. by left.
Qed.

Section GraphFacts.

Context {V : Type} (add : V -> V -> V).

Implicit Types (m : Build V) (g : Graph V) (stack : Stack) (o : Op V).

Lemma run_bind m k stack g :
  run (bind m k) stack g
  = let '(r, stack', g') := run m stack g in run (k r) stack' g'.
Proof.
  revert stack g.
  induction m as [ts | kind ins cont IH | [cs |] body IHbody cont IH];
    intros stack g; simpl.
  - reflexivity.
  - apply IH.
  - destruct (run body (enter cs stack) g) as [[r stack'] g']. apply IH.
  - destruct (run body [mkController [] []] g) as [[r stack'] g']. apply IH.
Qed.

Lemma no_clear_bind m k :
  no_clear m -> (forall r, no_clear (k r)) -> no_clear (bind m k).
Proof.
  intros Hm Hk.
  induction m as [ts | kind ins cont IH | [cs |] body IHbody cont IH]; simpl in *.
  - apply Hk.
  - intros t. by apply IH.
  - destruct Hm as [Hbody Hcont]. split; [done |].
    intros r. by apply IH.
  - done.
Qed.

(** Graph-building code only appends ops to the graph, and leaves the
    stack as it found it but for the ops it has recorded in every open
    block: ops it has created, and all of them when it never clears the
    control dependencies. *)
Lemma run_shape m stack g :
  exists r news ops,
    run m stack g = (r, record_ops news stack, g ++ ops)
    /\ (forall i, i ∈ news -> length g <= i < length (g ++ ops))
    /\ (no_clear m ->
        forall i, length g <= i < length (g ++ ops) -> i ∈ news).
Proof.
  revert stack g.
  induction m as [ts | kind ins cont IH | [cs |] body IHbody cont IH];
    intros stack g; simpl.
  - exists ts, [], []. rewrite record_ops_nil, app_nil_r.
    split; [done |]. split.
    + intros i Hi. by apply elem_of_nil in Hi.
    + intros _ i Hi. lia.
  - set (op := mkOp kind ins (control_dependencies_for_inputs stack ins)).
    destruct (IH (length g)
                (record_op_seen_by_control_dependencies (length g) stack)
                (g ++ [op])) as (r & news & ops & Hrun & Hin & Hall).
    exists r, (news ++ [length g]), (op :: ops).
    rewrite Hrun, record_op_seen_record_ops, record_ops_app.
    replace (g ++ op :: ops) with ((g ++ [op]) ++ ops)
      by (by rewrite <- app_assoc).
    split; [done |]. split.
    + intros i Hi. apply elem_of_app in Hi as [Hi | Hi].
      * apply Hin in Hi. rewrite !length_app in *. simpl in *. lia.
      * apply list_elem_of_singleton in Hi as ->.
        rewrite !length_app. simpl. lia.
    + intros Hnc i Hi. apply elem_of_app.
      destruct (decide (i = length g)) as [-> | Hne].
      * right. by apply list_elem_of_singleton.
      * left. apply (Hall (Hnc _)).
        rewrite !length_app in *. simpl in *. lia.
  - destruct (IHbody (enter cs stack) g) as (r1 & news1 & ops1 & Hrun1 & Hin1 & Hall1).
    rewrite Hrun1, record_ops_enter. simpl.
    destruct (IH r1 (record_ops news1 stack) (g ++ ops1))
      as (r & news & ops & Hrun & Hin & Hall).
    exists r, (news ++ news1), (ops1 ++ ops).
    rewrite Hrun, record_ops_app, <- app_assoc.
    split; [done |]. split.
    + intros i Hi. apply elem_of_app in Hi as [Hi | Hi].
      * apply Hin in Hi. rewrite !length_app in *. lia.
      * apply Hin1 in Hi. rewrite !length_app in *. lia.
    + intros [Hnc1 Hnc] i Hi. apply elem_of_app.
      destruct (decide (i < length (g ++ ops1))) as [Hlt | Hge].
      * right. apply (Hall1 Hnc1). lia.
      * left. apply (Hall (Hnc _)). rewrite !length_app in *. lia.
  - destruct (IHbody [mkController [] []] g) as (r1 & news1 & ops1 & Hrun1 & Hin1 & _).
    rewrite Hrun1.
    destruct (IH r1 stack (g ++ ops1)) as (r & news & ops & Hrun & Hin & _).
    exists r, news, (ops1 ++ ops).
    rewrite Hrun, <- app_assoc.
    split; [done |]. split; [| done].
    intros i Hi. apply Hin in Hi. rewrite !length_app in *. lia.
Qed.

Lemma run_created m stack g :
  exists ops, (run m stack g).2 = g ++ ops.
Proof.
  destruct (run_shape m stack g) as (r & news & ops & Hrun & _).
  exists ops. by rewrite Hrun.
Qed.

Lemma eval_graph_snoc g o :
  eval_graph add (g ++ [o])
  = eval_graph add g ++ [eval_op add (eval_graph add g) o].
Proof. unfold eval_graph. by rewrite foldl_app. Qed.

Lemma eval_graph_length g : length (eval_graph add g) = length g.
Proof.
  induction g as [| o g IH] using rev_ind; [done |].
  rewrite eval_graph_snoc, !length_app, IH. done.
Qed.

Lemma eval_graph_prefix g g' :
  eval_graph add g `prefix_of` eval_graph add (g ++ g').
Proof.
  induction g' as [| o g' IH] using rev_ind.
  - by rewrite app_nil_r.
  - rewrite app_assoc, eval_graph_snoc.
    by apply prefix_app_r.
Qed.

(** The value of a tensor does not change when the graph grows. *)
Lemma value_prefix g g' t v :
  value add g t = Some v -> value add (g ++ g') t = Some v.
Proof.
  unfold value. intros H.
  destruct (eval_graph add g !! t) as [ov |] eqn:E; [| discriminate].
  by rewrite (prefix_lookup_Some _ _ _ _ E (eval_graph_prefix g g')).
Qed.

Lemma mapM_value_prefix g g' ts vs :
  mapM (value add g) ts = Some vs -> mapM (value add (g ++ g')) ts = Some vs.
Proof.
  rewrite !mapM_Some. intros H.
  eapply Forall2_impl; [exact H |].
  intros t v. apply value_prefix.
Qed.

(** The value of the op at position [length g] of [g ++ o :: g']. *)
Lemma value_middle g o g' :
  value add (g ++ o :: g') (length g) = eval_op add (eval_graph add g) o.
Proof.
  unfold value.
  replace (g ++ o :: g') with ((g ++ [o]) ++ g') by (by rewrite <- app_assoc).
  assert (eval_graph add (g ++ [o]) !! length g
          = Some (eval_op add (eval_graph add g) o)) as E.
  { rewrite eval_graph_snoc.
    rewrite lookup_app_r by (rewrite eval_graph_length; lia).
    rewrite eval_graph_length. by replace (length g - length g) with 0 by lia. }
  by rewrite (prefix_lookup_Some _ _ _ _ E (eval_graph_prefix _ g')).
Qed.

(** Dependencies stay when the graph grows. *)
Lemma dependencies_app g g' a b :
  b ∈ dependencies g a -> b ∈ dependencies (g ++ g') a.
Proof.
  unfold dependencies. destruct (g !! a) as [o |] eqn:E.
  - by rewrite (lookup_app_l_Some _ _ _ _ E).
  - intros H. by apply elem_of_nil in H.
Qed.

Lemma depends_on_app g g' a c :
  depends_on g a c -> depends_on (g ++ g') a c.
Proof.
  induction 1 as [a | a b c Hb _ IH]; [constructor |].
  eapply depends_step; [by apply dependencies_app | exact IH].
Qed.

Lemma needs_app g g' a c : needs g a c -> needs (g ++ g') a c.
Proof.
  intros (b & Hb & Hc). exists b.
  split; [by apply dependencies_app | by apply depends_on_app].
Qed.

Lemma stack_ok_app g g' stack : stack_ok g stack -> stack_ok (g ++ g') stack.
Proof.
  unfold stack_ok. intros H. eapply Forall_impl; [exact H |].
  intros c Hc i d Hi Hd. apply needs_app. by apply Hc.
Qed.

Lemma depends_on_trans g a b c :
  depends_on g a b -> depends_on g b c -> depends_on g a c.
Proof.
  induction 1 as [a | a x b Hx _ IH]; [done |].
  intros Hc. eapply depends_step; [exact Hx | by apply IH].
Qed.

Lemma needs_depends_on g a c : needs g a c -> depends_on g a c.
Proof. intros (b & Hb & Hc). by eapply depends_step. Qed.

(** A new op needs every control input of every block that is open when
    it is created: it has the control input as an input of its own, or
    one of its data inputs was seen by the block. *)
Lemma create_op_ok g stack kind ins :
  stack_ok g stack ->
  stack_ok (g ++ [mkOp kind ins (control_dependencies_for_inputs stack ins)])
           (record_op_seen_by_control_dependencies (length g) stack).
Proof.
  intros Hok.
  set (op := mkOp kind ins (control_dependencies_for_inputs stack ins)).
  assert (dependencies (g ++ [op]) (length g)
          = ins ++ control_dependencies_for_inputs stack ins) as Hdeps.
  { unfold dependencies. rewrite lookup_app_r by lia.
    by replace (length g - length g) with 0 by lia. }
  unfold stack_ok, record_op_seen_by_control_dependencies.
  apply Forall_fmap, Forall_forall. intros c Hc i d Hi Hd. simpl in Hi, Hd.
  unfold stack_ok in Hok. rewrite Forall_forall in Hok.
  apply elem_of_cons in Hi as [-> | Hi];
    [| apply needs_app; by apply (Hok c Hc)].
  destruct (existsb (op_in_group c) ins) eqn:E.
  - apply existsb_exists in E as (b & Hb & Hseen).
    apply list_elem_of_In in Hb.
    apply bool_decide_eq_true_1 in Hseen.
    exists b. split.
    + rewrite Hdeps. apply elem_of_app. by left.
    + apply depends_on_app, needs_depends_on. by apply (Hok c Hc).
  - exists d. split; [| constructor].
    rewrite Hdeps. apply elem_of_app.
    destruct (decide (d ∈ ins)) as [Hin | Hnin]; [by left | right].
    unfold control_dependencies_for_inputs.
    apply list_elem_of_bind. exists c. split.
    + rewrite E. apply list_elem_of_filter. done.
    + by apply elem_of_reverse.
Qed.

(** Graph-building code keeps the stack in order. *)
Lemma run_ok m stack g :
  stack_ok g stack -> stack_ok (run m stack g).2 (run m stack g).1.2.
Proof.
  revert stack g.
  induction m as [ts | kind ins cont IH | [cs |] body IHbody cont IH];
    intros stack g Hok; simpl.
  - done.
  - apply IH. by apply create_op_ok.
  - assert (stack_ok g (enter cs stack)) as Hin.
    { apply Forall_cons. split; [| done].
      intros i d Hi. by apply elem_of_nil in Hi. }
    specialize (IHbody _ _ Hin).
    destruct (run body (enter cs stack) g) as [[r stack'] g']. simpl in IHbody.
    apply IH. destruct stack'; [done |].
    by apply Forall_cons in IHbody as [_ ?].
  - destruct (run_created body [mkController [] []] g) as (ops & Hg).
    destruct (run body [mkController [] []] g) as [[r stack'] g'].
    simpl in Hg. subst g'. apply IH. by apply stack_ok_app.
Qed.

(** The body of [with tf.control_dependencies(cs)]: every op the block has
    seen when the body ends is an op of the body and needs every tensor of
    [cs]. *)
Lemma run_block body cs stack g r stack' g' :
  stack_ok g stack ->
  run body (enter cs stack) g = (r, stack', g') ->
  exists block ops,
    stack' = block :: record_ops (seen_nodes block) stack
    /\ g' = g ++ ops
    /\ stack_ok g' (record_ops (seen_nodes block) stack)
    /\ (forall i d, i ∈ seen_nodes block -> d ∈ cs -> needs g' i d)
    /\ (forall i, i ∈ seen_nodes block -> length g <= i < length g')
    /\ (no_clear body ->
        forall i, length g <= i < length g' -> i ∈ seen_nodes block).
Proof.
  intros Hok Hrun.
  assert (stack_ok g (enter cs stack)) as Hin.
  { apply Forall_cons. split; [| done].
    intros i d Hi. by apply elem_of_nil in Hi. }
  pose proof (run_ok body _ _ Hin) as Hok'.
  destruct (run_shape body (enter cs stack) g)
    as (r0 & news & ops & Hshape & Hnews & Hall).
  rewrite Hrun in Hok'. rewrite Hrun, record_ops_enter in Hshape.
  injection Hshape as -> -> ->. simpl in Hok'.
  apply Forall_cons in Hok' as [Hblock Hrest].
  exists (mkController (control_ops (current_control_dependencies stack) cs) news),
    ops. simpl.
  split; [done |]. split; [done |]. split; [done |].
  split; [| split; [exact Hnews | exact Hall]].
  intros i d Hi Hd.
  destruct (control_ops_elem (current_control_dependencies stack) cs d Hd)
    as [Hnew | Hcur].
  - by apply Hblock.
  - unfold current_control_dependencies in Hcur.
    apply list_elem_of_bind in Hcur as (c & Hdc & Hc).
    unfold stack_ok in Hrest. rewrite Forall_forall in Hrest.
    apply (Hrest (mkController (control_inputs c) (news ++ seen_nodes c))).
    + unfold record_ops. apply list_elem_of_fmap. by exists c.
    + simpl. apply elem_of_app. by left.
    + done.
Qed.

(** In an execution, whatever a dependency of an op needs (the dependency
    itself to begin with) has run when the op starts. *)
Lemma schedule_depends_on g done s a b c :
  schedule g done s = true ->
  (forall x y, x ∈ done -> depends_on g x y -> y ∈ done) ->
  a ∈ s -> b ∈ dependencies g a -> depends_on g b c ->
  c ∈ done \/ runs_before s c a.
Proof.
  revert done.
  induction s as [| j rest IH]; intros done Hs Hclosed Ha Hb Hc.
  - by apply elem_of_nil in Ha.
  - simpl in Hs.
    apply andb_prop in Hs as [Hs Hrest].
    apply andb_prop in Hs as [Hs Hdeps].
    assert (forall x, x ∈ dependencies g j -> x ∈ done) as Hj.
    { intros x Hx. rewrite forallb_forall in Hdeps.
      eapply bool_decide_eq_true_1. apply Hdeps. by apply list_elem_of_In. }
    apply elem_of_cons in Ha as [-> | Ha].
    + left. apply (Hclosed b c); [by apply Hj | done].
    + destruct (IH (j :: done) Hrest) as [Hdone | (s1 & s2 & -> & Hs1)];
        [| done | done | done | |].
      * intros x y Hx Hxy. apply elem_of_cons in Hx as [-> | Hx].
        -- destruct Hxy as [| x b' y Hb' Hy]; [apply elem_of_cons; by left |].
           apply elem_of_cons. right. apply (Hclosed b' y); [by apply Hj | done].
        -- apply elem_of_cons. right. by apply (Hclosed x y).
      * apply elem_of_cons in Hdone as [-> | Hdone]; [| by left].
        right. apply list_elem_of_split in Ha as (r1 & r2 & ->).
        exists (j :: r1), r2. split; [done | apply elem_of_cons; by left].
      * right. exists (j :: s1), s2. split; [done |].
        apply elem_of_cons. by right.
Qed.

(** An op runs after whatever the ops it needs depend on, in every
    execution. *)
Lemma schedule_needs g s i d c :
  schedule g [] s = true ->
  i ∈ s -> needs g i d -> depends_on g d c ->
  runs_before s c i.
Proof.
  intros Hs Hi (b & Hb & Hd) Hc.
  destruct (schedule_depends_on g [] s i b c Hs) as [Hnil | H]; try done.
  - intros x y Hx. by apply elem_of_nil in Hx.
  - by eapply depends_on_trans.
  - by apply elem_of_nil in Hnil.
Qed.

End GraphFacts.

End TFFacts.

(** ** tensorforce/core/optimizers/plus.py *)

Module Plus.
Import TF TFFacts.

Section Step.

(** Tensor values with their addition, and the arguments handed through
    to the sub-optimizers unchanged. *)
Variable V : Type.
Variable add : V -> V -> V.
Variable Args Kwargs : Type.

(** The [step] method of an optimizer: graph-building code that returns
    its list of deltas. *)
Definition Optimizer : Type := Args -> Kwargs -> Build V.

(** [self.optimizer1], [self.optimizer2] *)
Record Plus : Type := mkPlus {
  optimizer1 : Optimizer;
  optimizer2 : Optimizer
}.

(** [[delta1 + delta2 for delta1, delta2 in pairs]] *)
Fixpoint list_of_sums (pairs : list (Tensor * Tensor)) : Build V :=
  match pairs with
  | [] => Return []
  | (delta1, delta2) :: rest =>
      CreateOp AddV2 [delta1; delta2]
        (fun t => bind (list_of_sums rest) (fun ts => Return (t :: ts)))
  end.

(** [Plus.step].  The second [with] block opens after the first has
    closed. *)
Definition step (self : Plus) (arguments : Args) (kwargs : Kwargs) : Build V :=
  bind (optimizer1 self arguments kwargs) (fun deltas1 =>
  ControlDependencies (Some deltas1) (optimizer2 self arguments kwargs)
    (fun deltas2 =>
  ControlDependencies (Some deltas2) (list_of_sums (zip deltas1 deltas2))
    Return)).

(** An op that adds a pair of deltas. *)
Definition is_sum (p : Tensor * Tensor) (o : Op V) : Prop :=
  op_kind o = AddV2 /\ op_inputs o = [p.1; p.2].

Lemma no_clear_list_of_sums pairs : no_clear (list_of_sums pairs).
Proof.
  induction pairs as [| [delta1 delta2] rest IH]; simpl; [done |].
  intros t. by apply no_clear_bind.
Qed.

Lemma run_list_of_sums pairs stack (g : Graph V) :
  exists stack' ops,
    run (list_of_sums pairs) stack g
    = (seq (length g) (length pairs), stack', g ++ ops)
    /\ Forall2 is_sum pairs ops.
Proof.
  revert stack g.
  induction pairs as [| [delta1 delta2] rest IH]; intros stack g; simpl.
  - exists stack, []. rewrite app_nil_r. split; [done | constructor].
  - rewrite run_bind.
    set (op := mkOp AddV2 [delta1; delta2] _).
    destruct (IH (record_op_seen_by_control_dependencies (length g) stack)
                (g ++ [op])) as (stack' & ops & Hrun & Hops).
    rewrite Hrun. exists stack', (op :: ops). split.
    + rewrite length_app. simpl.
      replace (length g + 1) with (S (length g)) by lia.
      by rewrite <- app_assoc.
    + constructor; [done | exact Hops].
Qed.

(** The sums take the values of the sums of their inputs. *)
Lemma value_list_of_sums pairs ops (g : Graph V) xs ys :
  Forall2 is_sum pairs ops ->
  mapM (value add g) (pairs.*1) = Some xs ->
  mapM (value add g) (pairs.*2) = Some ys ->
  mapM (value add (g ++ ops)) (seq (length g) (length pairs))
  = Some (zip_with add xs ys).
Proof.
  intros Hops. revert g xs ys.
  induction Hops as [| [delta1 delta2] o rest ops [Hkind Hins] _ IH];
    intros g xs ys Hx Hy.
  - cbv in Hx, Hy. by simplify_eq.
  - apply mapM_Some in Hx. apply mapM_Some in Hy. simpl in Hx, Hy.
    apply Forall2_cons_inv_l in Hx as (x & xs' & Hx & Hxs & ->).
    apply Forall2_cons_inv_l in Hy as (y & ys' & Hy & Hys & ->).
    apply mapM_Some in Hxs. apply mapM_Some in Hys.
    assert (value add (g ++ o :: ops) (length g) = Some (add x y)) as Hv.
    { rewrite value_middle. unfold eval_op. rewrite Hkind, Hins. simpl.
      unfold value in Hx, Hy. by rewrite Hx, Hy. }
    apply mapM_Some. simpl. constructor; [exact Hv |].
    apply mapM_Some.
    pose proof (IH (g ++ [o]) xs' ys') as IH'.
    rewrite length_app, <- app_assoc in IH'. simpl in IH'.
    replace (length g + 1) with (S (length g)) in IH' by lia.
    apply IH'; by apply mapM_value_prefix.
Qed.

(** What [step] does to the graph, given what the two sub-optimizers do:
    the sums are built in a block of their own, opened on the stack that
    the block of [optimizer2] has left. *)
Lemma run_step self arguments kwargs stack stack1 stack2 (g0 g1 g2 : Graph V)
    deltas1 deltas2 :
  run (optimizer1 self arguments kwargs) stack g0 = (deltas1, stack1, g1) ->
  run (optimizer2 self arguments kwargs) (enter deltas1 stack1) g1
  = (deltas2, stack2, g2) ->
  exists stack3 sums,
    run (step self arguments kwargs) stack g0
    = (seq (length g2) (length (zip deltas1 deltas2)), tail stack3, g2 ++ sums)
    /\ run (list_of_sums (zip deltas1 deltas2)) (enter deltas2 (tail stack2)) g2
       = (seq (length g2) (length (zip deltas1 deltas2)), stack3, g2 ++ sums)
    /\ Forall2 is_sum (zip deltas1 deltas2) sums.
Proof.
  intros H1 H2. unfold step.
  rewrite run_bind, H1. simpl. rewrite H2.
  destruct (run_list_of_sums (zip deltas1 deltas2)
              (enter deltas2 (tail stack2)) g2) as (stack3 & sums & Hrun & Hsums).
  exists stack3, sums. by rewrite Hrun.
Qed.

(** C1. When the step of [optimizer1] returns tensors of values [d1] and
    the step of [optimizer2] (built after it, under its control
    dependencies) returns tensors of values [d2], one per variable ([n] of
    them) in the same order, [Plus.step] returns [n] tensors, and their
    values are the element-wise sums [d1 + d2]. *)
Theorem step_returns_sum self arguments kwargs stack stack1 stack2
    (g0 g1 g2 : Graph V) deltas1 deltas2 (d1 d2 : list V) (n : nat) :
  run (optimizer1 self arguments kwargs) stack g0 = (deltas1, stack1, g1) ->
  run (optimizer2 self arguments kwargs) (enter deltas1 stack1) g1
  = (deltas2, stack2, g2) ->
  mapM (value add g1) deltas1 = Some d1 ->
  mapM (value add g2) deltas2 = Some d2 ->
  length d1 = n -> length d2 = n ->
  exists out stack3 g3,
    run (step self arguments kwargs) stack g0 = (out, stack3, g3) /\
    length out = n /\
    mapM (value add g3) out = Some (zip_with add d1 d2) /\
    length (zip_with add d1 d2) = n.
Proof.
  intros H1 H2 Hd1 Hd2 Hn1 Hn2.
  pose proof (length_mapM _ _ _ Hd1) as Hl1.
  pose proof (length_mapM _ _ _ Hd2) as Hl2.
  assert (length deltas1 = length deltas2) as Hlen by congruence.
  destruct (run_step self arguments kwargs stack stack1 stack2 g0 g1 g2
              deltas1 deltas2 H1 H2) as (stack3 & sums & Hrun & _ & Hsums).
  eexists _, _, _. split; [exact Hrun |].
  split; [| split].
  - rewrite length_seq, length_zip_with. lia.
  - destruct (run_created (optimizer2 self arguments kwargs)
                (enter deltas1 stack1) g1) as (ops2 & Hg2).
    rewrite H2 in Hg2. simpl in Hg2.
    apply value_list_of_sums; [exact Hsums | |].
    + rewrite fst_zip by lia. subst g2. by apply mapM_value_prefix.
    + rewrite snd_zip by lia. done.
  - rewrite length_zip_with. lia.
Qed.

(** C2. Called on a stack of open blocks that is in order (as every
    stack is that graph-building code has left, the empty one to begin
    with), [Plus.step] builds a graph that consists of the ops of
    [optimizer1]'s step, then the ops of [optimizer2]'s step, then the
    sums.  Every op that the block around [optimizer2]'s step has seen (all
    the ops of that step, when it never clears the control dependencies)
    needs every delta of [optimizer1], as a data or control input of its
    own or through its inputs; every sum needs every delta of
    [optimizer2].  Hence in every execution of the graph such an op of
    [optimizer2] starts only when the deltas of [optimizer1] and all that
    they depend on have been computed, and a sum starts only when the
    deltas of [optimizer2] and all that they depend on have been
    computed. *)
Theorem step_order self arguments kwargs stack stack1 stack2 (g0 g1 g2 : Graph V)
    deltas1 deltas2 :
  stack_ok g0 stack ->
  run (optimizer1 self arguments kwargs) stack g0 = (deltas1, stack1, g1) ->
  run (optimizer2 self arguments kwargs) (enter deltas1 stack1) g1
  = (deltas2, stack2, g2) ->
  exists out stack3 g3 block ops1 ops2 sums,
    run (step self arguments kwargs) stack g0 = (out, stack3, g3) /\
    g1 = g0 ++ ops1 /\ g2 = g1 ++ ops2 /\ g3 = g2 ++ sums /\
    out = seq (length g2) (length sums) /\
    head stack2 = Some block /\
    (forall i, i ∈ seen_nodes block -> length g1 <= i < length g2) /\
    (no_clear (optimizer2 self arguments kwargs) ->
     forall i, length g1 <= i < length g2 -> i ∈ seen_nodes block) /\
    (forall i d, i ∈ seen_nodes block -> d ∈ deltas1 -> needs g3 i d) /\
    (forall i d, i ∈ out -> d ∈ deltas2 -> needs g3 i d) /\
    forall s, schedule g3 [] s = true ->
      (forall i d c, i ∈ s -> i ∈ seen_nodes block ->
                     d ∈ deltas1 -> depends_on g3 d c -> runs_before s c i) /\
      (forall i d c, i ∈ s -> i ∈ out ->
                     d ∈ deltas2 -> depends_on g3 d c -> runs_before s c i).
Proof.
  intros Hok H1 H2.
  destruct (run_created (optimizer1 self arguments kwargs) stack g0)
    as (ops1 & Hg1).
  pose proof (run_ok (optimizer1 self arguments kwargs) stack g0 Hok) as Hok1.
  rewrite H1 in Hg1, Hok1. simpl in Hg1, Hok1.
  destruct (run_block _ _ _ _ _ _ _ Hok1 H2)
    as (block & ops2 & Hstack2 & Hg2 & Hok2 & Hneeds2 & Hseen2 & Hall2).
  destruct (run_step self arguments kwargs stack stack1 stack2 g0 g1 g2
              deltas1 deltas2 H1 H2) as (stack3 & sums & Hrun & Hrun3 & Hsums).
  assert (tail stack2 = record_ops (seen_nodes block) stack1) as Htail
    by (by rewrite Hstack2).
  rewrite Htail in Hrun3.
  destruct (run_block _ _ _ _ _ _ _ Hok2 Hrun3)
    as (block3 & sums' & _ & Hg3 & _ & Hneeds3 & _ & Hall3).
  apply app_inv_head in Hg3 as <-.
  pose proof (Forall2_length _ _ _ Hsums) as Hlen.
  assert (forall i d, i ∈ seen_nodes block -> d ∈ deltas1 ->
                      needs (g2 ++ sums) i d) as Hn2.
  { intros i d Hi Hd. apply needs_app. by apply Hneeds2. }
  assert (forall i d, i ∈ seq (length g2) (length sums) -> d ∈ deltas2 ->
                      needs (g2 ++ sums) i d) as Hn3.
  { intros i d Hi Hd. apply Hneeds3; [| done].
    apply (Hall3 (no_clear_list_of_sums _)).
    apply elem_of_seq in Hi. rewrite length_app. lia. }
  exists (seq (length g2) (length sums)), (tail stack3), (g2 ++ sums),
    block, ops1, ops2, sums.
  split; [by rewrite Hrun, Hlen |].
  do 4 (split; [done |]).
  split; [by rewrite Hstack2 |].
  split; [exact Hseen2 |]. split; [exact Hall2 |].
  split; [exact Hn2 |]. split; [exact Hn3 |].
  intros s Hs. split; intros i d c Hi Hin Hd Hc.
  - eapply schedule_needs; [exact Hs | exact Hi | by apply Hn2 | exact Hc].
  - eapply schedule_needs; [exact Hs | exact Hi | by apply Hn3 | exact Hc].
Qed.

End Step.

Arguments mkPlus {V Args Kwargs} _ _.
Arguments optimizer1 {V Args Kwargs} _.
Arguments optimizer2 {V Args Kwargs} _.
Arguments list_of_sums {V} pairs.
Arguments step {V Args Kwargs} self arguments kwargs.
Arguments is_sum {V} p o.

(** Two deterministic stub optimizers that return fixed deltas. *)
Fixpoint constants (vs : list Z) : Build Z :=
  match vs with
  | [] => Return []
  | v :: rest =>
      CreateOp (Other (fun _ => v)) []
        (fun t => bind (constants rest) (fun ts => Return (t :: ts)))
  end.

Definition stub_plus : Plus Z unit unit :=
  mkPlus (fun _ _ => constants [1; 2]%Z) (fun _ _ => constants [10; 20]%Z).

Lemma step_returns_sum_witness :
  exists out stack3 g3,
    run (step stub_plus tt tt) [] [] = (out, stack3, g3) /\
    length out = 2 /\
    mapM (value Z.add g3) out = Some [11; 22]%Z /\
    length [11; 22]%Z = 2.
Proof.
  exact (step_returns_sum Z Z.add unit unit stub_plus tt tt [] [] _
           [] _ _ [0; 1] [2; 3] [1; 2]%Z [10; 20]%Z 2
           eq_refl eq_refl eq_refl eq_refl eq_refl eq_refl).
Defined.

(** The graph of the stubs: the two deltas of the first, the two of the
    second with the deltas of the first as control inputs, and the two
    sums, each with the delta of the second that is not its data input as
    control input. *)
Example stub_graph :
  (fun o => (op_inputs o, op_control_inputs o))
    <$> (run (step stub_plus tt tt) [] []).2
  = [([], []); ([], []); ([], [0; 1]); ([], [0; 1]); ([0; 2], [3]); ([1; 3], [2])].
Proof. reflexivity. Qed.

Lemma step_order_witness :
  exists out stack3 g3 block ops1 ops2 sums,
    run (step stub_plus tt tt) [] [] = (out, stack3, g3) /\
    (run (constants [1; 2]%Z) [] []).2 = [] ++ ops1 /\
    (run (constants [10; 20]%Z) (enter [0; 1] []) (run (constants [1; 2]%Z) [] []).2).2
    = (run (constants [1; 2]%Z) [] []).2 ++ ops2 /\
    g3 = (run (constants [10; 20]%Z) (enter [0; 1] [])
            (run (constants [1; 2]%Z) [] []).2).2 ++ sums /\
    out = seq 4 (length sums) /\
    Some (mkController [0; 1] [3; 2]) = Some block /\
    (forall i, i ∈ seen_nodes block -> 2 <= i < 4) /\
    (no_clear (constants [10; 20]%Z) ->
     forall i, 2 <= i < 4 -> i ∈ seen_nodes block) /\
    (forall i d, i ∈ seen_nodes block -> d ∈ [0; 1] -> needs g3 i d) /\
    (forall i d, i ∈ out -> d ∈ [2; 3] -> needs g3 i d) /\
    forall s, schedule g3 [] s = true ->
      (forall i d c, i ∈ s -> i ∈ seen_nodes block ->
                     d ∈ [0; 1] -> depends_on g3 d c -> runs_before s c i) /\
      (forall i d c, i ∈ s -> i ∈ out ->
                     d ∈ [2; 3] -> depends_on g3 d c -> runs_before s c i).
Proof.
  exact (step_order Z unit unit stub_plus tt tt [] [] _ [] _ _
           [0; 1] [2; 3] (Forall_nil_2 _) eq_refl eq_refl).
Defined.

(** The stub graph has an execution, so the ordering above is not vacuous:
    the two deltas of the first stub, the two of the second, the two sums. *)
Example stub_schedule :
  schedule (run (step stub_plus tt tt) [] []).2 [] [0; 1; 2; 3; 4; 5] = true
  /\ schedule (run (step stub_plus tt tt) [] []).2 [] [0; 2; 1; 3; 4; 5] = false.
Proof. split; reflexivity. Qed.

(** A first optimizer whose step builds an op that its delta does not
    depend on, before the op of its delta. *)
Definition side_plus : Plus Z unit unit :=
  mkPlus (fun _ _ => CreateOp (Other (fun _ => 7%Z)) []
                       (fun _ => constants [1]%Z))
         (fun _ _ => constants [10]%Z).

(** Of the graph of [side_plus], ops 0 and 1 are those of the first
    optimizer's step, op 2 that of the second, op 3 the sum.  The graph can
    execute with op 0 of the first optimizer last, after the op of the
    second optimizer and the sum, or without op 0 at all. *)
Lemma step_order_counterexample :
  (run (optimizer1 side_plus tt tt) [] []).1.1 = [1]
  /\ length (run (optimizer1 side_plus tt tt) [] []).2 = 2
  /\ (run (step side_plus tt tt) [] []).1.1 = [3]
  /\ length (run (step side_plus tt tt) [] []).2 = 4
  /\ schedule (run (step side_plus tt tt) [] []).2 [] [1; 2; 3; 0] = true
  /\ ~ runs_before [1; 2; 3; 0] 0 2
  /\ schedule (run (step side_plus tt tt) [] []).2 [] [1; 2; 3] = true.
Proof.
  do 5 (split; [reflexivity |]). split; [| reflexivity].
  intros (s1 & s2 & Heq & Hin).
  destruct s1 as [| x s1]; simplify_eq/=.
  destruct s1 as [| y s1]; simplify_eq/=.
  - apply elem_of_cons in Hin as [? | Hin]; [done |].
    by apply elem_of_nil in Hin.
  - destruct s1 as [| z s1]; simplify_eq/=.
    destruct s1 as [| w s1]; simplify_eq/=.
    destruct s1; simplify_eq/=.
Qed.

(** A second optimizer whose step creates an op under
    [tf.control_dependencies(None)], as the creation of a variable does:
    the op has no control input, and can run before the delta of the first
    optimizer. *)
Definition clearing_plus : Plus Z unit unit :=
  mkPlus (fun _ _ => constants [1]%Z)
         (fun _ _ => ControlDependencies None (constants [5]%Z)
                       (fun _ => constants [10]%Z)).

Example cleared_op_not_ordered :
  (fun o => (op_inputs o, op_control_inputs o))
    <$> (run (step clearing_plus tt tt) [] []).2
  = [([], []); ([], []); ([], [0]); ([0; 2], [])]
  /\ schedule (run (step clearing_plus tt tt) [] []).2 [] [1; 0; 2; 3] = true.
Proof. split; reflexivity. Qed.

End Plus.

(** ** tensorforce/agents/trpo.py *)

Module TrustRegionPolicyOptimization.

(** The arguments of the constructor.  The numbers the constructor
    calculates with are integers; the flag it branches on is a bool; the
    rest is handed on as it comes. *)
Record Args : Type := mkArgs {
  states : Value;
  actions : Value;
  max_episode_timesteps : Z;
  network : Value;
  batch_size : Z;
  update_frequency : Value;
  learning_rate : Value;
  likelihood_ratio_clipping : Value;
  discount : Value;
  estimate_terminal : bool;
  critic_network : Value;
  critic_optimizer : Value;
  preprocessing : Value;
  exploration : Value;
  variable_noise : Value;
  l2_regularization : Value;
  entropy_regularization : Value;
  name : Value;
  device : Value;
  parallel_interactions : Value;
  seed : Value;
  execution : Value;
  saver : Value;
  summarizer : Value
}.

(** Keyword arguments of a call, in the order they are written. *)
Definition Kwargs : Type := list (string * Value).

Fixpoint kwarg (key : string) (kw : Kwargs) : option Value :=
  match kw with
  | [] => None
  | (k, v) :: rest => if String.eqb k key then Some v else kwarg key rest
  end.

(** [TrustRegionPolicyOptimization.__init__]: the keyword arguments it
    calls [PolicyAgent.__init__] with, or the exception it raises before. *)
Definition __init__ (a : Args) : Result Kwargs :=
  let memory := dict [
    ("type", PyStr "recent");
    ("capacity", PyInt ((batch_size a + 1) * max_episode_timesteps a)%Z)] in
  let update :=
    if is_none (update_frequency a) then
      dict [("unit", PyStr "episodes"); ("batch_size", PyInt (batch_size a))]
    else
      dict [("unit", PyStr "episodes"); ("batch_size", PyInt (batch_size a));
            ("frequency", update_frequency a)] in
  let optimizer := dict [
    ("type", PyStr "natural_gradient");
    ("learning_rate", learning_rate a);
    ("cg_max_iterations", PyInt 10);
    ("cg_damping", PyFloat (1 # 1000))] in
  let optimizer := dict [
    ("type", PyStr "optimized_step");
    ("optimizer", optimizer);
    ("ls_max_iterations", PyInt 10);
    ("ls_accept_ratio", PyFloat (9 # 10));
    ("ls_mode", PyStr "exponential");
    ("ls_parameter", PyFloat (1 # 2))] in
  let objective := dict [
    ("type", PyStr "policy_gradient");
    ("ratio_based", PyBool true);
    ("clipping_value", likelihood_ratio_clipping a)] in
  let reward_estimation :=
    if is_none (critic_network a) then
      dict [("horizon", PyStr "episode"); ("discount", discount a)]
    else
      dict [("horizon", PyStr "episode"); ("discount", discount a);
            ("estimate_horizon",
             if estimate_terminal a then PyStr "late" else PyBool false);
            ("estimate_terminal", PyBool (estimate_terminal a));
            ("estimate_advantage", PyBool true)] in
  do baseline_objective <-
    (if is_none (critic_network a) then Ok PyNone
     else do_ assert (negb (is_none (critic_optimizer a))); Ok (PyStr "state_value"));
  Ok [
    (* Agent *)
    ("states", states a); ("actions", actions a);
    ("max_episode_timesteps", PyInt (max_episode_timesteps a));
    ("parallel_interactions", parallel_interactions a);
    ("buffer_observe", PyInt (max_episode_timesteps a));
    ("seed", seed a);
    (* Model *)
    ("name", name a); ("device", device a); ("execution", execution a);
    ("saver", saver a); ("summarizer", summarizer a);
    ("preprocessing", preprocessing a); ("exploration", exploration a);
    ("variable_noise", variable_noise a);
    ("l2_regularization", l2_regularization a);
    (* PolicyModel *)
    ("policy", PyNone); ("network", network a); ("memory", memory);
    ("update", update); ("optimizer", optimizer); ("objective", objective);
    ("reward_estimation", reward_estimation); ("baseline_policy", PyNone);
    ("baseline_network", critic_network a);
    ("baseline_objective", baseline_objective);
    ("baseline_optimizer", critic_optimizer a);
    ("entropy_regularization", entropy_regularization a)].

(** C3. The constructor hands [PolicyAgent.__init__] the optimizer
    [{type: optimized_step, optimizer: {type: natural_gradient,
    learning_rate: <given>, cg_max_iterations: 10, cg_damping: 1e-3},
    ls_max_iterations: 10, ls_accept_ratio: 0.9, ls_mode: 'exponential',
    ls_parameter: 0.5}] and the objective [{type: policy_gradient,
    ratio_based: True, clipping_value: <likelihood_ratio_clipping>}].
    The only way not to get there is the assertion that a critic network
    comes with a critic optimizer. *)
Theorem init_optimizer_and_objective (a : Args) :
  match __init__ a with
  | Ok kw =>
      kwarg "optimizer" kw
      = Some (PyDict [
          ("type", PyStr "optimized_step");
          ("optimizer", PyDict [
             ("type", PyStr "natural_gradient");
             ("learning_rate", learning_rate a);
             ("cg_max_iterations", PyInt 10);
             ("cg_damping", PyFloat (1 # 1000))]);
          ("ls_max_iterations", PyInt 10);
          ("ls_accept_ratio", PyFloat (9 # 10));
          ("ls_mode", PyStr "exponential");
          ("ls_parameter", PyFloat (1 # 2))])
      /\ kwarg "objective" kw
         = Some (PyDict [
             ("type", PyStr "policy_gradient");
             ("ratio_based", PyBool true);
             ("clipping_value", likelihood_ratio_clipping a)])
  | Raise e =>
      e = mkExc AssertionError []
      /\ is_none (critic_network a) = false
      /\ is_none (critic_optimizer a) = true
  end.
Proof.
  unfold __init__.
  destruct (is_none (critic_network a)) eqn:Hn; simpl.
  - split; reflexivity.
  - destruct (is_none (critic_optimizer a)) eqn:Ho; simpl.
    + repeat split.
    + split; reflexivity.
Qed.

End TrustRegionPolicyOptimization.

(** ** tensorforce/core: what the sources use of [TensorSpec] and
    [TensorforceError] *)

Module Core.

(** The attributes of a [TensorSpec] that the sources read. *)
Record TensorSpec : Type := mkTensorSpec {
  type : string;
  shape : list Z;
  min_value : option Q;
  max_value : option Q;
  num_values : option Z
}.

(** [TensorforceError.value(name=..., argument=..., value=..., hint=...)] *)
Definition TensorforceError_value
    (name argument : string) (value : Value) (hint : string) : Exc :=
  mkExc TensorforceError [PyStr name; PyStr argument; value; PyStr hint].

Lemma eq_str_true v s : eq_str v s = true <-> v = PyStr s.
Proof.
  destruct v; simpl; try (split; [discriminate | intros; discriminate]).
  rewrite String.eqb_eq. split; [by intros -> | by intros [= ->]].
Qed.

Lemma eq_str_false v s : v <> PyStr s -> eq_str v s = false.
Proof.
  intros H. destruct (eq_str v s) eqn:E; [| done].
  by apply eq_str_true in E.
Qed.

End Core.

(** ** tensorforce/core/distributions/distribution.py *)

Module Distribution.
Import Core.

Section Construction.

(** [Module.__init__], the parent's constructor: it may touch the world
    (the graph, the module registry) and leaves the parent's part of the
    object, or raises. *)
Variable World : Type.
Variable ModuleState : Type.
Variable Specs : Type.
Variable Module_init :
  forall (summary_labels : Value) (l2_regularization : Q) (name : Value),
    World -> Result ModuleState * World.

Record Distribution : Type := mkDistribution {
  module : ModuleState;
  action_spec : option Specs;
  input_spec : option TensorSpec;
  parameters_spec : option Specs
}.

(** [Distribution.__init__]; [input_spec] defaults to [None], whose [type]
    cannot be read. *)
Definition __init__
    (summary_labels name : Value) (action_spec : option Specs)
    (input_spec : option TensorSpec) (parameters_spec : option Specs)
    (w : World) : Result Distribution * World :=
  match input_spec with
  | None => (Raise (mkExc AttributeError []), w)
  | Some spec =>
      if String.eqb (type spec) "float" then
        match Module_init summary_labels 0%Q name w with
        | (Ok m, w') =>
            (Ok (mkDistribution m action_spec input_spec parameters_spec), w')
        | (Raise e, w') => (Raise e, w')
        end
      else (Raise (mkExc AssertionError []), w)
  end.

(** C4. With an input spec whose type is not ['float'] the constructor
    raises (its assertion fails) and the world is as it was: the parent's
    constructor has not run and nothing else has.  With an input spec of
    type ['float'] construction goes on to the parent's constructor, and
    yields the distribution when that succeeds. *)
Theorem init_requires_float
    summary_labels name action_spec (spec : TensorSpec) parameters_spec w :
  (type spec <> "float" ->
     __init__ summary_labels name action_spec (Some spec) parameters_spec w
     = (Raise (mkExc AssertionError []), w))
  /\ (type spec = "float" ->
        __init__ summary_labels name action_spec (Some spec) parameters_spec w
        = match Module_init summary_labels 0%Q name w with
          | (Ok m, w') =>
              (Ok (mkDistribution m action_spec (Some spec) parameters_spec), w')
          | (Raise e, w') => (Raise e, w')
          end).
Proof.
  unfold __init__. split; intros H.
  - destruct (String.eqb_spec (type spec) "float") as [E | E]; [done | done].
  - rewrite H. simpl. reflexivity.
Qed.

End Construction.

Arguments mkDistribution {ModuleState Specs} _ _ _ _.
Arguments __init__ {World ModuleState Specs} Module_init _ _ _ _ _ _.

(** A parent constructor that records that it ran. *)
Definition logging_Module_init (_ : Value) (_ : Q) (_ : Value) (w : list string)
  : Result unit * list string :=
  (Ok tt, "Module.__init__" :: w).

Lemma init_requires_float_witness :
  __init__ logging_Module_init PyNone PyNone (None : option unit)
    (Some (mkTensorSpec "int" [] None None (Some 3%Z))) None []
  = (Raise (mkExc AssertionError []), [])
  /\ __init__ logging_Module_init PyNone PyNone (None : option unit)
       (Some (mkTensorSpec "float" [4%Z] None None None)) None []
     = (Ok (mkDistribution tt None
              (Some (mkTensorSpec "float" [4%Z] None None None)) None),
        ["Module.__init__"]).
Proof.
  split.
  - apply (proj1 (init_requires_float (list string) unit unit logging_Module_init
                    PyNone PyNone None (mkTensorSpec "int" [] None None (Some 3%Z))
                    None [])).
    discriminate.
  - apply (proj2 (init_requires_float (list string) unit unit logging_Module_init
                    PyNone PyNone None (mkTensorSpec "float" [4%Z] None None None)
                    None [])).
    reflexivity.
Defined.

Section Capabilities.

(** Tensors, whatever they are. *)
Variable T : Type.

(** The capability methods of the base class. *)
Definition parametrize (x : T) : Result T :=
  Raise (mkExc NotImplementedError []).

Definition sample (parameters temperature : T) : Result T :=
  Raise (mkExc NotImplementedError []).

Definition log_probability (parameters action : T) : Result T :=
  Raise (mkExc NotImplementedError []).

Definition entropy (parameters : T) : Result T :=
  Raise (mkExc NotImplementedError []).

Definition kl_divergence (parameters1 parameters2 : T) : Result T :=
  Raise (mkExc NotImplementedError []).

Definition states_value (parameters : T) : Result T :=
  Raise (mkExc NotImplementedError []).

Definition action_value (parameters action : T) : Result T :=
  Raise (mkExc NotImplementedError []).

Inductive Capability : Type :=
| Parametrize | Sample | LogProbability | Entropy | KlDivergence
| StatesValue | ActionValue.

(** A call of a capability method, with its arguments. *)
Inductive Call : Type :=
| CallParametrize (x : T)
| CallSample (parameters temperature : T)
| CallLogProbability (parameters action : T)
| CallEntropy (parameters : T)
| CallKlDivergence (parameters1 parameters2 : T)
| CallStatesValue (parameters : T)
| CallActionValue (parameters action : T).

Definition capability (c : Call) : Capability :=
  match c with
  | CallParametrize _ => Parametrize
  | CallSample _ _ => Sample
  | CallLogProbability _ _ => LogProbability
  | CallEntropy _ => Entropy
  | CallKlDivergence _ _ => KlDivergence
  | CallStatesValue _ => StatesValue
  | CallActionValue _ _ => ActionValue
  end.

Definition base_method (c : Call) : Result T :=
  match c with
  | CallParametrize x => parametrize x
  | CallSample p t => sample p t
  | CallLogProbability p a => log_probability p a
  | CallEntropy p => entropy p
  | CallKlDivergence p1 p2 => kl_divergence p1 p2
  | CallStatesValue p => states_value p
  | CallActionValue p a => action_value p a
  end.

(** A variant of the distribution: the capability methods its class
    defines itself.  A call goes to the variant's method when there is
    one, and to the base class otherwise. *)
Definition Variant : Type := Capability -> option (Call -> Result T).

Definition invoke (v : Variant) (c : Call) : Result T :=
  match v (capability c) with
  | Some method => method c
  | None => base_method c
  end.

(** C5. Calling a capability that the variant does not define raises
    [NotImplementedError].  An [except NotImplementedError] catches it and
    catches no exception of any other class, so none of the arithmetic
    errors, no [ValueError], [TypeError] or plain [RuntimeError]; and an
    [except ArithmeticError] does not catch it. *)
Theorem unimplemented_capability_raises (v : Variant) (c : Call) :
  v (capability c) = None ->
  invoke v c = Raise (mkExc NotImplementedError [])
  /\ isinstance (mkExc NotImplementedError []) NotImplementedError = true
  /\ isinstance (mkExc NotImplementedError []) ArithmeticError = false
  /\ forall e : Exc, exc_class e <> NotImplementedError ->
                     isinstance e NotImplementedError = false.
Proof.
  intros Hv. unfold invoke. rewrite Hv.
  split; [by destruct c |].
  split; [reflexivity |].
  split; [reflexivity |].
  intros [cls args] Hcls. simpl in Hcls.
  destruct cls; try reflexivity. done.
Qed.

End Capabilities.

Arguments CallEntropy {T} _.
Arguments invoke {T} v c.
Arguments capability {T} c.

Lemma unimplemented_capability_raises_witness :
  invoke (fun _ => None) (CallEntropy tt) = Raise (mkExc NotImplementedError [])
  /\ isinstance (mkExc NotImplementedError []) NotImplementedError = true
  /\ isinstance (mkExc NotImplementedError []) ArithmeticError = false
  /\ forall e : Exc, exc_class e <> NotImplementedError ->
                     isinstance e NotImplementedError = false.
Proof.
  exact (unimplemented_capability_raises unit (fun _ => None) (CallEntropy tt) eq_refl).
Defined.

End Distribution.

(** ** tensorforce/core/layers/internal_rnn.py *)

Module InternalRnn.
Import Core.

(** The keyword arguments [InternalRnn.__init__] calls its parents'
    constructor with. *)
Record SuperArgs : Type := mkSuperArgs {
  temporal_processing : string;
  horizon : Value;
  size : Value;
  bias : Value;
  activation : Value;
  dropout : Value;
  vars_trainable : Value;
  summary_labels : Value;
  l2_regularization : Value;
  name : Value;
  input_spec : Value
}.

Section Construction.

(** The parents' constructor ([TemporalLayer], [TransformationBase]) with
    the [self.size] it leaves, and the two Keras cell constructors; each
    may raise. *)
Variable Layer : Type.
Variable Cell : Type.
Variable Kwargs : Type.
Variable super_init : SuperArgs -> Result Layer.
Variable self_size : Layer -> Value.
Variable GRUCell : forall (units : Value) (name : string), Kwargs -> Result Cell.
Variable LSTMCell : forall (units : Value) (name : string), Kwargs -> Result Cell.

Record InternalRnn : Type := mkInternalRnn {
  layer : Layer;
  cell_type : Value;
  cell : Cell
}.

(** [InternalRnn.__init__] *)
Definition __init__
    (cell size horizon bias activation dropout vars_trainable summary_labels
     l2_regularization name input_spec : Value) (kwargs : Kwargs)
  : Result InternalRnn :=
  do self <- super_init (mkSuperArgs "iterative" horizon size bias activation
                           dropout vars_trainable summary_labels
                           l2_regularization name input_spec);
  let cell_type := cell in
  if eq_str cell_type "gru" then
    do c <- GRUCell (self_size self) "cell" kwargs;
    Ok (mkInternalRnn self cell_type c)
  else if eq_str cell_type "lstm" then
    do c <- LSTMCell (self_size self) "cell" kwargs;
    Ok (mkInternalRnn self cell_type c)
  else
    Raise (TensorforceError_value "Rnn" "cell" cell_type "not in {gru,lstm}").

(** C6. With a [cell] that is neither ['gru'] nor ['lstm'] the constructor
    never returns a layer: it raises, and once the parents' constructor
    has succeeded what it raises is the [TensorforceError] for the value of
    [cell].  With ['gru'] (['lstm']) it returns the layer with that cell
    type and the [GRUCell] ([LSTMCell]) built for it, given that the
    parents' constructor and the Keras constructor succeed. *)
Theorem init_checks_cell
    cell size horizon bias activation dropout vars_trainable summary_labels
    l2_regularization name input_spec kwargs :
  let args := mkSuperArgs "iterative" horizon size bias activation dropout
                vars_trainable summary_labels l2_regularization name input_spec in
  let result := __init__ cell size horizon bias activation dropout vars_trainable
                  summary_labels l2_regularization name input_spec kwargs in
  (cell <> PyStr "gru" -> cell <> PyStr "lstm" ->
     (exists e, result = Raise e)
     /\ (forall self, super_init args = Ok self ->
           result = Raise (TensorforceError_value "Rnn" "cell" cell
                             "not in {gru,lstm}")))
  /\ (cell = PyStr "gru" -> forall self c,
        super_init args = Ok self ->
        GRUCell (self_size self) "cell" kwargs = Ok c ->
        result = Ok (mkInternalRnn self (PyStr "gru") c))
  /\ (cell = PyStr "lstm" -> forall self c,
        super_init args = Ok self ->
        LSTMCell (self_size self) "cell" kwargs = Ok c ->
        result = Ok (mkInternalRnn self (PyStr "lstm") c)).
Proof.
  intros args result. subst result. unfold __init__. fold args.
  split; [| split].
  - intros Hgru Hlstm.
    rewrite (eq_str_false _ _ Hgru), (eq_str_false _ _ Hlstm).
    split.
    + destruct (super_init args) as [self | e]; simpl; eauto.
    + intros self ->. reflexivity.
  - intros -> self c -> Hc. simpl. rewrite Hc. reflexivity.
  - intros -> self c -> Hc. simpl. rewrite Hc. reflexivity.
Qed.

End Construction.

Arguments mkInternalRnn {Layer Cell} _ _ _.
Arguments __init__ {Layer Cell Kwargs} super_init self_size GRUCell LSTMCell
  _ _ _ _ _ _ _ _ _ _ _ _.

(** Parents and Keras constructors that always succeed: the layer keeps
    its size, a cell its kind and units. *)
Definition plain_super_init (a : SuperArgs) : Result Value := Ok (size a).

Definition plain_cell (kind : string) (units : Value) (_ : string) (_ : unit)
  : Result (string * Value) :=
  Ok (kind, units).

Lemma init_checks_cell_witness :
  let result cell :=
    __init__ plain_super_init id (plain_cell "GRUCell") (plain_cell "LSTMCell")
      cell (PyInt 8) (PyInt 1) (PyBool false) PyNone (PyFloat 0) (PyBool true)
      PyNone PyNone PyNone PyNone tt in
  result (PyStr "rnn")
  = Raise (TensorforceError_value "Rnn" "cell" (PyStr "rnn") "not in {gru,lstm}")
  /\ result (PyStr "gru")
     = Ok (mkInternalRnn (PyInt 8) (PyStr "gru") ("GRUCell", PyInt 8))
  /\ result (PyStr "lstm")
     = Ok (mkInternalRnn (PyInt 8) (PyStr "lstm") ("LSTMCell", PyInt 8)).
Proof.
  pose (thm cell := init_checks_cell Value (string * Value) unit plain_super_init id
          (plain_cell "GRUCell") (plain_cell "LSTMCell")
          cell (PyInt 8) (PyInt 1) (PyBool false) PyNone (PyFloat 0) (PyBool true)
          PyNone PyNone PyNone PyNone tt).
  intros result. split; [| split].
  - destruct (thm (PyStr "rnn")) as [H _].
    apply (proj2 (H ltac:(discriminate) ltac:(discriminate)) (PyInt 8)).
    reflexivity.
  - destruct (thm (PyStr "gru")) as (_ & H & _).
    apply (H eq_refl); reflexivity.
  - destruct (thm (PyStr "lstm")) as (_ & _ & H).
    apply (H eq_refl); reflexivity.
Defined.

End InternalRnn.

(** ** TensorFlow: the tensor functions of tensorforce/models/model.py

    A rank-one tensor is the list of its elements along the batch axis. *)

Module TFOps.

Local Open Scope Q_scope.

(** What a float operation gives: a number, an infinity or NaN. *)
Inductive Float : Type :=
| Finite (q : Q)
| Inf (negative : bool)
| NaN.

Definition Qsign_negative (q : Q) : bool := negb (Qle_bool 0 q).

(** [x + y] *)
Definition fadd (x y : Float) : Float :=
  match x, y with
  | Finite a, Finite b => Finite (a + b)
  | Inf s, Finite _ => Inf s
  | Finite _, Inf s => Inf s
  | Inf s, Inf s' => if Bool.eqb s s' then Inf s else NaN
  | NaN, _ => NaN
  | _, NaN => NaN
  end.

(** [x - y] *)
Definition fsub (x y : Float) : Float :=
  match x, y with
  | Finite a, Finite b => Finite (a - b)
  | Inf s, Finite _ => Inf s
  | Finite _, Inf s => Inf (negb s)
  | Inf s, Inf s' => if Bool.eqb s s' then NaN else Inf s
  | NaN, _ => NaN
  | _, NaN => NaN
  end.

(** [x / y]: a number divided by zero is an infinity, zero divided by zero
    is NaN. *)
Definition fdiv (x y : Float) : Float :=
  match x, y with
  | Finite a, Finite b =>
      if Qeq_bool b 0 then
        if Qeq_bool a 0 then NaN else Inf (Qsign_negative a)
      else Finite (a / b)
  | Finite _, Inf _ => Finite 0
  | Inf s, Finite b => Inf (xorb s (Qsign_negative b))
  | Inf _, Inf _ => NaN
  | NaN, _ => NaN
  | _, NaN => NaN
  end.

(** [tf.reduce_sum(x, axis=0)] *)
Definition reduce_sum (x : list Q) : Q := foldl Qplus 0 x.

(** [tf.reduce_mean(x, axis=0)]: the sum divided by the number of
    elements; NaN for no element. *)
Definition reduce_mean (x : list Q) : Float :=
  fdiv (Finite (reduce_sum x)) (Finite (inject_Z (Z.of_nat (length x)))).

(** [tf.add_n(inputs)]: the sum of at least one tensor. *)
Definition add_n (inputs : list Q) : Result Q :=
  match inputs with
  | [] => Raise (mkExc ValueError [PyStr "inputs must be a list of at least one Tensor"])
  | x :: rest => Ok (foldl Qplus x rest)
  end.

(** [tf.nn.moments(x, axes=0)]: the mean, and the mean of the squared
    differences from it; both are NaN for no element. *)
Definition moments (x : list Q) : Float * Float :=
  match reduce_mean x with
  | Finite mean =>
      (Finite mean, reduce_mean ((fun v => (v - mean) * (v - mean)) <$> x))
  | mean => (mean, mean)
  end.

(** [x > y], false when one of the two is NaN. *)
Definition fgt (x y : Float) : bool :=
  match x, y with
  | Finite a, Finite b => negb (Qle_bool a b)
  | Finite _, Inf negative => negative
  | Inf negative, Finite _ => negb negative
  | Inf negative, Inf negative' => negb negative && negative'
  | NaN, _ => false
  | _, NaN => false
  end.

(** [tf.maximum(x, y)]: the larger of two that are not NaN.  What it
    gives when one of the two is NaN (NaN, or the other one) is not the
    same in every version of TensorFlow, and is left to [maximum_nan]. *)
Definition maximum (maximum_nan : Float -> Float -> Float) (x y : Float)
    : Float :=
  match x, y with
  | NaN, _ => maximum_nan x y
  | _, NaN => maximum_nan x y
  | _, _ => if fgt x y then x else y
  end.

(** [tf.identity(input)] *)
Definition identity {A} (input : A) : A := input.

(** [tf.reverse(tensor, axis=(0,))] *)
Definition reverse {A} (tensor : list A) : list A := list.reverse tensor.

(** [tf.cond(pred, true_fn, false_fn)] *)
Definition cond {A} (pred : bool) (true_fn false_fn : unit -> A) : A :=
  if pred then true_fn tt else false_fn tt.

(** [tf.scan(fn, elems, initializer)] over one tensor: the accumulator
    after each element. *)
Fixpoint scan {A B} (fn : A -> B -> A) (elems : list B) (initializer : A) : list A :=
  match elems with
  | [] => []
  | e :: rest => let a := fn initializer e in a :: scan fn rest a
  end.

(** [tf.scan(fn, elems=(elems1, elems2), initializer)]: the two tensors are
    unpacked along their first axis and scanned in step.  What becomes of
    two tensors that differ in the size of that axis is left to
    [scan_unequal]. *)
Definition scan2 {A B C}
    (scan_unequal : (A -> B * C -> A) -> list B * list C -> A -> Result (list A))
    (fn : A -> B * C -> A) (elems : list B * list C)
    (initializer : A) : Result (list A) :=
  if Nat.eqb (length elems.1) (length elems.2) then
    Ok (scan fn (zip elems.1 elems.2) initializer)
  else
    scan_unequal fn elems initializer.

Lemma scan_app {A B} (fn : A -> B -> A) l1 l2 a :
  scan fn (l1 ++ l2) a = scan fn l1 a ++ scan fn l2 (foldl fn a l1).
Proof.
  revert a. induction l1 as [| x l1 IH]; intros a; simpl; [done |].
  by rewrite IH.
Qed.

(** The last accumulator of a scan is the fold. *)
Lemma scan_last {A B} (fn : A -> B -> A) l a :
  default a (last (scan fn l a)) = foldl fn a l.
Proof.
  revert a. induction l as [| x l IH]; intros a; [done |].
  cbn [scan foldl]. specialize (IH (fn a x)).
  destruct l as [| y l]; [done |].
  cbn [scan] in *. rewrite last_cons_cons.
  destruct (last_is_Some (fn (fn a x) y :: scan fn l (fn (fn a x) y)))
    as [_ [z Hz]]; [done |].
  rewrite Hz in *. exact IH.
Qed.

Lemma scan_length {A B} (fn : A -> B -> A) l a : length (scan fn l a) = length l.
Proof. revert a. induction l as [| x l IH]; intros a; simpl; [done |]. by rewrite IH. Qed.

Lemma reverse_zip {A B} (l : list A) (k : list B) :
  length l = length k ->
  zip (list.reverse l) (list.reverse k) = list.reverse (zip l k).
Proof.
  revert k. induction l as [| x l IH]; intros [| y k] Hlen; try done.
  simpl in Hlen. rewrite !reverse_cons.
  rewrite zip_with_app by (rewrite !length_reverse; lia).
  rewrite IH by lia. simpl. by rewrite reverse_cons.
Qed.

(** Multiplication of rationals commutes on the nose. *)
Lemma Qmult_comm_eq (a b : Q) : a * b = b * a.
Proof.
  destruct a as [an ad], b as [bn bd]. unfold Qmult. simpl.
  f_equal; [apply Z.mul_comm | apply Pos.mul_comm].
Qed.

Lemma foldl_Qplus (x : Q) (l : list Q) : foldl Qplus x l == x + foldl Qplus 0 l.
Proof.
  revert x. induction l as [| y l IH]; intros x; simpl.
  - ring.
  - rewrite (IH (x + y)), (IH (0 + y)). ring.
Qed.

(** The mean of no element is NaN; the mean of some elements is their sum
    divided by their number. *)
Lemma reduce_mean_nil : reduce_mean [] = NaN.
Proof. reflexivity. Qed.

Lemma reduce_mean_nonempty (x : list Q) :
  x <> [] ->
  reduce_mean x = Finite (reduce_sum x / inject_Z (Z.of_nat (length x))).
Proof.
  intros Hx. unfold reduce_mean, fdiv.
  destruct (Qeq_bool (inject_Z (Z.of_nat (length x))) 0) eqn:E; [| done].
  apply Qeq_bool_iff in E. unfold Qeq in E. simpl in E.
  destruct x; [done | simpl in E; lia].
Qed.

End TFOps.

(** ** tensorforce/models/model.py *)

Module Model.
Import TFOps.

Local Open Scope Q_scope.

Section Model.

(** Batches of states, internals and actions are handed on as they come;
    rewards and losses are rank-one tensors, terminal flags booleans. *)
Variable States Internals Actions : Type.

(** [util.epsilon] *)
Variable epsilon : Q.

(** What [tf.scan] makes of two tensors of different sizes. *)
Variable scan_unequal :
  (Q -> Q * bool -> Q) -> list Q * list bool -> Q -> Result (list Q).

(** What [tf.maximum] makes of NaN. *)
Variable maximum_nan : Float -> Float -> Float.

(** What the methods below read of [self]: the flag set by the
    constructor, and the two templates a subclass fills in. *)
Record Model : Type := mkModel {
  normalize_rewards : bool;
  fn_loss_per_instance :
    States -> Internals -> Actions -> list bool -> list Q -> list Q;
  fn_regularization_losses : States -> Internals -> list (string * Q)
}.

(** [Model.get_reward] *)
Definition get_reward (self : Model) (states : States) (internals : Internals)
    (terminal : list bool) (reward : list Q) : list Float :=
  if normalize_rewards self then
    let '(mean, variance) := moments reward in
    (fun r => fdiv (fsub (Finite r) mean)
                (maximum maximum_nan variance (Finite epsilon)))
      <$> reward
  else
    identity (Finite <$> reward).

(** [fn_scan] of [Model.tf_discounted_cumulative_reward] *)
Definition fn_scan (discount : Q) (cumulative : Q) (reward_and_terminal : Q * bool) : Q :=
  let '(reward_, terminal_) := reward_and_terminal in
  cond terminal_
    (fun _ => reward_)
    (fun _ => reward_ + cumulative * discount).

(** [Model.tf_discounted_cumulative_reward] *)
Definition tf_discounted_cumulative_reward
    (reward : list Q) (terminal : list bool) (discount : Q) (final_reward : Q)
  : Result (list Q) :=
  let reward := reverse reward in
  let terminal := reverse terminal in
  do reward <- scan2 scan_unequal (fn_scan discount) (reward, terminal)
                 final_reward;
  Ok (reverse reward).

(** [Model.tf_loss] *)
Definition tf_loss (self : Model) (states : States) (internals : Internals)
    (actions : Actions) (terminal : list bool) (reward : list Q)
  : Result Float :=
  let loss_per_instance :=
    fn_loss_per_instance self states internals actions terminal reward in
  let loss := reduce_mean loss_per_instance in
  let losses := fn_regularization_losses self states internals in
  if (0 <? length losses)%nat then
    do regularization <- add_n (losses.*2);
    Ok (fadd loss (Finite regularization))
  else
    Ok loss.

(** *** The discounted cumulative reward, as the backward recurrence *)

(** [R_i = r_i] at a terminal step, [R_i = r_i + d * R_(i+1)] otherwise,
    with [final_reward] after the last step. *)
Fixpoint returns (discount final_reward : Q) (steps : list (Q * bool)) : list Q :=
  match steps with
  | [] => []
  | (r, t) :: rest =>
      let tail := returns discount final_reward rest in
      (if t then r else r + discount * hd final_reward tail) :: tail
  end.

Lemma returns_length d f steps : length (returns d f steps) = length steps.
Proof.
  induction steps as [| [r t] rest IH]; simpl; [done | by rewrite IH].
Qed.

Lemma head_default {A} (l : list A) (a : A) : default a (head l) = hd a l.
Proof. by destruct l. Qed.

(** The scan over the reversed steps computes the recurrence. *)
Lemma scan_reverse_returns d f steps :
  scan (fn_scan d) (list.reverse steps) f = list.reverse (returns d f steps).
Proof.
  induction steps as [| [r t] rest IH]; [done |].
  rewrite reverse_cons, scan_app, IH. simpl.
  rewrite reverse_cons. f_equal.
  rewrite <- scan_last, IH, last_reverse, head_default.
  unfold fn_scan, cond. destruct t; [done |].
  by rewrite Qmult_comm_eq.
Qed.

Lemma tf_discounted_cumulative_reward_returns reward terminal d f :
  length reward = length terminal ->
  tf_discounted_cumulative_reward reward terminal d f
  = Ok (returns d f (zip reward terminal)).
Proof.
  intros Hlen. unfold tf_discounted_cumulative_reward, scan2, reverse. simpl.
  rewrite !length_reverse.
  rewrite (proj2 (Nat.eqb_eq _ _) Hlen). simpl.
  rewrite reverse_zip by done.
  by rewrite scan_reverse_returns, reverse_involutive.
Qed.

Lemma returns_lookup d f (steps : list (Q * bool)) i r t :
  steps !! i = Some (r, t) ->
  returns d f steps !! i
  = Some (if t : bool then r else r + d * nth (S i) (returns d f steps) f).
Proof.
  revert i. induction steps as [| [r0 t0] rest IH]; intros i Hi; [done |].
  destruct i as [| i].
  - simpl in Hi. injection Hi as -> ->. simpl.
    by destruct (returns d f rest).
  - simpl in Hi. simpl. by apply IH.
Qed.

(** Up to and including a terminal step the returns depend on nothing
    that comes after it. *)
Lemma returns_terminal_cut d f f' (steps steps' : list (Q * bool)) i r :
  steps !! i = Some (r, true) ->
  take (S i) steps' = take (S i) steps ->
  take (S i) (returns d f' steps') = take (S i) (returns d f steps).
Proof.
  revert i steps'. induction steps as [| [r0 t0] rest IH]; intros i steps' Hi Ht;
    [done |].
  destruct steps' as [| [r1 t1] rest']; [done |].
  simpl in Ht. injection Ht as -> -> Ht.
  destruct i as [| i].
  - simpl in Hi. injection Hi as -> ->. done.
  - simpl in Hi. specialize (IH i rest' Hi Ht).
    cbn [returns take]. rewrite IH. f_equal.
    destruct t0; [done |]. do 2 f_equal.
    destruct rest as [| [r2 t2] rest2]; [done |].
    cbn [returns take] in IH.
    destruct (returns d f' rest') as [| x xs]; [done |].
    simpl in IH. by injection IH.
Qed.

(** C7. The loss of a batch with at least one instance is the mean of the
    per-instance losses (their sum divided by their number) plus the sum
    of the regularization losses; with no regularization loss it is the
    batch mean itself.  The mean of a batch with no instance is NaN, and so
    is the loss. *)
Theorem tf_loss_batch_mean self states internals actions terminal reward :
  let loss_per_instance :=
    fn_loss_per_instance self states internals actions terminal reward in
  let losses := fn_regularization_losses self states internals in
  exists loss,
    tf_loss self states internals actions terminal reward = Ok loss
    /\ (loss_per_instance = [] -> loss = NaN)
    /\ (loss_per_instance <> [] ->
        exists q,
          loss = Finite q
          /\ q == reduce_sum loss_per_instance
                   / inject_Z (Z.of_nat (length loss_per_instance))
                 + reduce_sum (losses.*2)
          /\ (losses = [] ->
              q = reduce_sum loss_per_instance
                  / inject_Z (Z.of_nat (length loss_per_instance))))%Q.
Proof.
  intros lpi losses. unfold tf_loss. fold lpi losses.
  destruct losses as [| [k x] rest]; simpl.
  - exists (reduce_mean lpi). split; [done |]. split.
    + by intros ->.
    + intros Hne. rewrite (reduce_mean_nonempty _ Hne).
      eexists. split; [done |]. split; [| done].
      unfold reduce_sum. simpl. ring.
  - eexists. split; [done |]. split.
    + by intros ->.
    + intros Hne. rewrite (reduce_mean_nonempty _ Hne). simpl.
      eexists. split; [done |]. split; [| done].
      unfold reduce_sum. simpl.
      rewrite (foldl_Qplus x), (foldl_Qplus (0 + x)). ring.
Qed.

(** C8. For rewards and terminal flags of the same length the discounted
    cumulative reward [R] has that length and satisfies
    [R_i = r_i] where [t_i] holds and [R_i = r_i + d * R_(i+1)] where it
    does not, with [R_n = final_reward].  A terminal flag resets the
    accumulation: up to and including a terminal step, [R] is the same for
    all rewards and any final reward that come after the step. *)
Theorem discounted_cumulative_reward_recurrence
    (reward : list Q) (terminal : list bool) (discount final_reward : Q) :
  length reward = length terminal ->
  exists R,
    tf_discounted_cumulative_reward reward terminal discount final_reward = Ok R
    /\ length R = length reward
    /\ (forall i r (t : bool),
          reward !! i = Some r -> terminal !! i = Some t ->
          R !! i = Some (if t then r
                         else r + discount * nth (S i) R final_reward))
    /\ (forall i reward' final_reward',
          terminal !! i = Some true ->
          length reward' = length terminal ->
          take (S i) reward' = take (S i) reward ->
          exists R',
            tf_discounted_cumulative_reward reward' terminal discount final_reward'
            = Ok R'
            /\ take (S i) R' = take (S i) R).
Proof.
  intros Hlen.
  exists (returns discount final_reward (zip reward terminal)).
  split; [by apply tf_discounted_cumulative_reward_returns |].
  split; [rewrite returns_length, length_zip_with; lia |].
  split.
  - intros i r t Hr Ht. apply returns_lookup.
    rewrite lookup_zip_with, Hr. simpl. by rewrite Ht.
  - intros i reward' final_reward' Ht Hlen' Htake.
    exists (returns discount final_reward' (zip reward' terminal)).
    split; [by apply tf_discounted_cumulative_reward_returns |].
    destruct (lookup_lt_is_Some_2 reward i) as [r Hr].
    { rewrite Hlen. by apply lookup_lt_Some in Ht. }
    apply (returns_terminal_cut _ _ _ _ _ i r).
    + rewrite lookup_zip_with, Hr. simpl. by rewrite Ht.
    + by rewrite !zip_with_take, Htake.
Qed.

(** C9. With reward normalization the rewards are centred on their mean
    and divided by their variance (the mean of the squared differences
    from the mean, not its square root), or by epsilon where the variance
    is not larger than epsilon.  Without normalization the rewards come
    back as they are. *)
Theorem get_reward_normalization self states internals terminal reward :
  let mean := reduce_sum reward / inject_Z (Z.of_nat (length reward)) in
  let variance :=
    reduce_sum ((fun r => (r - mean) * (r - mean)) <$> reward)
    / inject_Z (Z.of_nat (length reward)) in
  (normalize_rewards self = true ->
     (variance <= epsilon -> ~ epsilon == 0 ->
      get_reward self states internals terminal reward
      = (fun r => Finite ((r - mean) / epsilon)) <$> reward)
     /\ (epsilon < variance -> ~ variance == 0 ->
         get_reward self states internals terminal reward
         = (fun r => Finite ((r - mean) / variance)) <$> reward))
  /\ (normalize_rewards self = false ->
        get_reward self states internals terminal reward = Finite <$> reward).
Proof.
  intros mean variance. unfold get_reward.
  split; intros ->; [| done].
  destruct (decide (reward = [])) as [-> | Hne]; [done |].
  assert (moments reward = (Finite mean, Finite variance)) as ->.
  { unfold moments. rewrite (reduce_mean_nonempty _ Hne). fold mean.
    rewrite reduce_mean_nonempty by (by destruct reward).
    by rewrite length_fmap. }
  unfold maximum, fgt, fsub, fdiv.
  split; intros Hcmp Hnz.
  - apply Qle_bool_iff in Hcmp. rewrite Hcmp. simpl.
    destruct (Qeq_bool epsilon 0) eqn:E; [| done].
    by apply Qeq_bool_iff in E.
  - destruct (Qle_bool variance epsilon) eqn:Hle.
    + apply Qle_bool_iff in Hle. by apply Qle_not_lt in Hle.
    + simpl. destruct (Qeq_bool variance 0) eqn:E; [| done].
      by apply Qeq_bool_iff in E.
Qed.

End Model.

Arguments mkModel {States Internals Actions} _ _ _.
Arguments get_reward {States Internals Actions} epsilon maximum_nan self _ _ _ _.
Arguments tf_loss {States Internals Actions} self _ _ _ _ _.

(** A [tf.maximum] to run the examples with. *)
Definition maximum_propagates (x y : Float) : Float := NaN.

(** A [tf.scan] to run the examples with; their tensors are of equal
    sizes, so that it is never reached. *)
Definition scan_shorter
    (fn : Q -> Q * bool -> Q) (elems : list Q * list bool) (initializer : Q)
  : Result (list Q) :=
  Ok (scan fn (zip elems.1 elems.2) initializer).

(** A model with reward normalization whose per-instance loss is the
    reward and which has one regularization loss. *)
Definition toy_model : Model unit unit unit :=
  mkModel true (fun _ _ _ _ reward => reward) (fun _ _ => [("l2", 1 # 4)]).

Lemma discounted_cumulative_reward_recurrence_witness :
  exists R,
    tf_discounted_cumulative_reward scan_shorter
      [1; 2; 3] [false; true; false] (1 # 2) 8 = Ok R
    /\ length R = 3%nat
    /\ (forall i r (t : bool),
          [1; 2; 3] !! i = Some r -> [false; true; false] !! i = Some t ->
          R !! i = Some (if t then r else r + (1 # 2) * nth (S i) R 8))
    /\ (forall i reward' final_reward',
          [false; true; false] !! i = Some true ->
          length reward' = 3%nat ->
          take (S i) reward' = take (S i) [1; 2; 3] ->
          exists R',
            tf_discounted_cumulative_reward scan_shorter
              reward' [false; true; false] (1 # 2) final_reward' = Ok R'
            /\ take (S i) R' = take (S i) R).
Proof.
  exact (discounted_cumulative_reward_recurrence scan_shorter
           [1; 2; 3] [false; true; false] (1 # 2) 8 eq_refl).
Defined.

(** The rewards 1 and 1 have variance 0, below epsilon: they are divided
    by epsilon.  The rewards 0 and 4 have variance 4: they are divided by
    4. *)
Lemma get_reward_normalization_witness :
  get_reward (1 # 1000000) maximum_propagates toy_model tt tt [false; false] [1; 1]
  = (fun r => Finite ((r - reduce_sum [1; 1] / 2) / (1 # 1000000))) <$> [1; 1]
  /\ get_reward (1 # 1000000) maximum_propagates toy_model tt tt [false; false] [0; 4]
     = (fun r => Finite ((r - reduce_sum [0; 4] / 2)
                         / (reduce_sum ((fun r => (r - reduce_sum [0; 4] / 2)
                                                  * (r - reduce_sum [0; 4] / 2))
                                          <$> [0; 4]) / 2))) <$> [0; 4].
Proof.
  split.
  - destruct (get_reward_normalization unit unit unit (1 # 1000000) maximum_propagates toy_model
                tt tt [false; false] [1; 1]) as [H _].
    destruct (H eq_refl) as [Hclamped _].
    apply Hclamped; vm_compute; discriminate.
  - destruct (get_reward_normalization unit unit unit (1 # 1000000) maximum_propagates toy_model
                tt tt [false; false] [0; 4]) as [H _].
    destruct (H eq_refl) as [_ Hvariance].
    apply Hvariance; [reflexivity | vm_compute; discriminate].
Defined.

(** The example in numbers: the rewards 0 and 4 have mean 2, variance 4
    and standard deviation 2; normalization gives -1/2 and 1/2 (division
    by the variance), not -1 and 1. *)
Example get_reward_divides_by_variance :
  exists a b,
    get_reward (1 # 1000000) maximum_propagates toy_model tt tt [false; false] [0; 4]
    = [Finite a; Finite b]
    /\ a == - (1 # 2) /\ b == 1 # 2.
Proof. eexists _, _. split; [reflexivity |]. split; reflexivity. Qed.

(** The rewards 0 and 1/1000 have mean 1/2000 and variance 1/4000000,
    below epsilon: normalization divides by epsilon and gives -500 and 500,
    not -2000 and 2000. *)
Example get_reward_divides_by_epsilon :
  exists a b,
    get_reward (1 # 1000000) maximum_propagates toy_model tt tt [false; false] [0; 1 # 1000]
    = [Finite a; Finite b]
    /\ a == - 500 /\ b == 500.
Proof. eexists _, _. split; [reflexivity |]. split; reflexivity. Qed.

(** No reward, no result; and NaN for the moments. *)
Example get_reward_of_no_reward :
  get_reward (1 # 1000000) maximum_propagates toy_model tt tt [] [] = []
  /\ moments [] = (NaN, NaN).
Proof. split; reflexivity. Qed.

Example tf_loss_toy :
  exists loss, tf_loss toy_model tt tt tt [false; false] [0; 4] = Ok (Finite loss)
               /\ loss == 2 + (1 # 4).
Proof. eexists. split; [reflexivity | reflexivity]. Qed.

Example tf_loss_of_no_instance :
  tf_loss toy_model tt tt tt [] [] = Ok NaN.
Proof. reflexivity. Qed.

Example discounted_cumulative_reward_toy :
  tf_discounted_cumulative_reward scan_shorter
    [1; 2; 3] [false; true; false] (1 # 2) 8
  = Ok [1 + (1 # 2) * 2; 2; 3 + (1 # 2) * 8].
Proof. reflexivity. Qed.

End Model.

(** ** tensorforce/core/models/constant.py *)

Module ConstantModel.
Import Core.

Local Open Scope Q_scope.

(** A Python scalar: a number, an infinity or NaN (of a float), or a
    bool. *)
Inductive Scalar : Type :=
| Num (q : Q)
| Infinity (negative : bool)
| NotANumber
| Bool (b : bool).

(** Tensors, as the TensorFlow expressions that [core_act] builds. *)
Inductive Tensor : Type :=
| Input (name : string)                               (* a tensor handed in *)
| Constant (value : Scalar) (dtype : string)          (* [tf_util.constant] *)
| Choices (num_values : Z) (shape : list Z)           (* the constant [range(num_values)] *)
| Fill (dims : list Z) (value : Tensor)               (* [tf.fill] *)
| Zeros (shape : list Z) (dtype : string)             (* [tf_util.zeros] *)
| Tile (input : Tensor) (multiples : list Z)          (* [tf.tile] *)
| BooleanMask (tensor mask : Tensor)                  (* [tf.boolean_mask] *)
| Cast (x : Tensor) (dtype : string)                  (* [tf_util.cast] *)
| ReduceSum (input_tensor : Tensor) (axis : nat)      (* [tf.math.reduce_sum] *)
| Cumsum (x : Tensor) (axis : nat) (exclusive : bool) (* [tf.math.cumsum] *)
| Gather (params indices : Tensor).                   (* [tf.gather] *)

Record Config : Type := mkConfig {
  enable_int_action_masking : bool
}.

(** What [core_act] reads of [self]. *)
Record ConstantModel : Type := mkConstantModel {
  actions_spec : gmap string TensorSpec;
  action_values : gmap string Scalar;
  config : Config
}.

(** [d[key]] on a dict of tensors *)
Definition getitem (d : gmap string Tensor) (key : string) : Result Tensor :=
  match d !! key with
  | Some t => Ok t
  | None => Raise (mkExc KeyError [PyStr key])
  end.

(** [tf_util.constant(value=value, dtype=dtype)] of a [value] that Python
    has computed as a float: TensorFlow makes a constant of type float of
    a Python float, and refuses to make one of another type. *)
Definition constant_of_float (value : Q) (dtype : string) : Result Tensor :=
  if String.eqb dtype "float" then Ok (Constant (Num value) dtype)
  else Raise (mkExc TypeError [PyStr dtype; PyFloat value]).

(** The condition of the masking branch: [Some num_values] when
    [config.enable_int_action_masking and spec.type == 'int' and
    spec.num_values is not None]. *)
Definition int_action_masking (self : ConstantModel) (spec : TensorSpec) : option Z :=
  if enable_int_action_masking (config self) && String.eqb (type spec) "int"
  then num_values spec
  else None.

(** [Some bound] when [spec.type != 'bool' and bound is not None]. *)
Definition bound_of_non_bool (spec : TensorSpec) (bound : option Q) : option Q :=
  if negb (String.eqb (type spec) "bool") then bound else None.

(** The body of the loop of [core_act] for one action: the tensor stored
    under [actions[name]].  [batch] is the leading dimension of the
    states.  A user-supplied value has the Python type of the spec (the
    constructor has converted it), and so has a bound; the mean of two
    bounds is computed with [0.5] and is a Python float. *)
Definition action (self : ConstantModel) (batch : Z) (auxiliaries : gmap string Tensor)
    (name : string) (spec : TensorSpec) : Result Tensor :=
  let shape := [batch] ++ shape spec in
  match action_values self !! name with
  | Some value =>
      (* If user-specified, choose given action *)
      Ok (Fill shape (Constant value (type spec)))
  | None =>
  match int_action_masking self spec with
  | Some num_values =>
      (* If masking, choose first unmasked action *)
      do mask <- getitem auxiliaries (name ++ "_mask");
      let choices :=
        Choices num_values (((fun _ => 1%Z) <$> Core.shape spec) ++ [1%Z; num_values]) in
      let multiples := shape ++ [1%Z] in
      let choices := Tile choices multiples in
      let choices := BooleanMask choices mask in
      let mask := Cast mask "int" in
      let num_unmasked := ReduceSum mask (length (Core.shape spec) + 1) in
      let masked_offset := Cumsum num_unmasked (length (Core.shape spec)) true in
      Ok (Gather choices masked_offset)
  | None =>
  match bound_of_non_bool spec (min_value spec) with
  | Some min_value =>
      match max_value spec with
      | Some max_value =>
          (* If min/max_value given, choose mean action *)
          let action := min_value + (1 # 2) * (max_value - min_value) in
          do action <- constant_of_float action (type spec);
          Ok (Fill shape action)
      | None =>
          (* If only min_value given, choose min_value *)
          Ok (Fill shape (Constant (Num min_value) (type spec)))
      end
  | None =>
  match bound_of_non_bool spec (max_value spec) with
  | Some max_value =>
      (* If only max_value given, choose max_value *)
      Ok (Fill shape (Constant (Num max_value) (type spec)))
  | None =>
      (* Else choose zero *)
      Ok (Zeros shape (type spec))
  end end end end.

(** One turn of the loop: [actions[name] = ...]. *)
Definition loop_body (self : ConstantModel) (batch : Z) (auxiliaries : gmap string Tensor)
    (actions : Result (gmap string Tensor)) (item : string * TensorSpec)
  : Result (gmap string Tensor) :=
  do actions <- actions;
  do a <- action self batch auxiliaries item.1 item.2;
  Ok (<[item.1 := a]> actions).

(** [ConstantModel.core_act]; [batch] is [tf.shape(states.item())[:1]]. *)
Definition core_act (self : ConstantModel) (batch : Z)
    (internals auxiliaries : gmap string Tensor) (deterministic : Tensor)
  : Result (gmap string Tensor * gmap string Tensor) :=
  do_ assert (Nat.eqb (size internals) 0);
  do actions <- foldl (loop_body self batch auxiliaries) (Ok ∅)
                  (map_to_list (actions_spec self));
  Ok (actions, ∅).

(** [ConstantModel.core_observe] *)
Definition core_observe (self : ConstantModel)
    (states internals auxiliaries actions terminal reward : Tensor) : Tensor :=
  Constant (Bool false) "bool".

(** The action as the specification words it, by the bounds alone: the
    midpoint when both are given, the one that is given, zero otherwise. *)
Definition action_by_bounds (batch : Z) (spec : TensorSpec) : Tensor :=
  let shape := [batch] ++ shape spec in
  match min_value spec, max_value spec with
  | Some lo, Some hi => Fill shape (Constant (Num (lo + (1 # 2) * (hi - lo))) (type spec))
  | Some lo, None => Fill shape (Constant (Num lo) (type spec))
  | None, Some hi => Fill shape (Constant (Num hi) (type spec))
  | None, None => Zeros shape (type spec)
  end.

Lemma foldl_loop_body_Raise self batch auxiliaries e items :
  foldl (loop_body self batch auxiliaries) (Raise e) items = Raise e.
Proof. induction items as [| item items IH]; [done | exact IH]. Qed.

(** What the loop leaves in [actions]. *)
Lemma foldl_loop_body self batch auxiliaries (items : list (string * TensorSpec))
    (acc : gmap string Tensor) :
  NoDup (items.*1) ->
  (forall name spec, (name, spec) ∈ items ->
     exists a, action self batch auxiliaries name spec = Ok a) ->
  exists actions,
    foldl (loop_body self batch auxiliaries) (Ok acc) items = Ok actions
    /\ (forall name spec, (name, spec) ∈ items ->
          Ok (A:=Tensor) <$> actions !! name
          = Some (action self batch auxiliaries name spec))
    /\ (forall name, name ∉ items.*1 -> actions !! name = acc !! name).
Proof.
  revert acc. induction items as [| [n s] items IH]; intros acc Hnd Hok.
  - exists acc. split; [done |]. split; [| done].
    intros name spec H. by apply elem_of_nil in H.
  - simpl in Hnd. apply NoDup_cons in Hnd as [Hn Hnd].
    destruct (Hok n s) as [a Ha]; [apply elem_of_cons; by left |].
    destruct (IH (<[n := a]> acc) Hnd) as (actions & Hfold & Hin & Hout).
    { intros name spec H. apply Hok. apply elem_of_cons. by right. }
    exists actions. split; [| split].
    + cbn [foldl].
      replace (loop_body self batch auxiliaries (Ok acc) (n, s))
        with (Ok (A:=gmap string Tensor) (<[n := a]> acc)); [exact Hfold |].
      unfold loop_body. simpl. by rewrite Ha.
    + intros name spec H. apply elem_of_cons in H as [[= -> ->] | H].
      * rewrite (Hout n Hn), lookup_insert_eq. simpl. by rewrite Ha.
      * by apply Hin.
    + intros name H. rewrite fmap_cons in H. simpl in H.
      apply not_elem_of_cons in H as [Hne H].
      rewrite (Hout name H). by apply lookup_insert_ne.
Qed.

(** When the loop of [core_act] gets through, every action was built, and
    the names it has added are those of the items. *)
Lemma foldl_loop_body_inv self batch auxiliaries (items : list (string * TensorSpec))
    (acc actions : gmap string Tensor) :
  foldl (loop_body self batch auxiliaries) (Ok acc) items = Ok actions ->
  (forall name spec, (name, spec) ∈ items ->
     exists a, action self batch auxiliaries name spec = Ok a)
  /\ (forall name, is_Some (actions !! name)
                   <-> is_Some (acc !! name) \/ name ∈ items.*1).
Proof.
  revert acc. induction items as [| [n s] items IH]; intros acc Hfold.
  - simpl in Hfold. injection Hfold as <-. split.
    + intros name spec H. by apply elem_of_nil in H.
    + intros name. split; [by left | intros [H | H]; [done |]].
      by apply elem_of_nil in H.
  - cbn [foldl] in Hfold. unfold loop_body at 2 in Hfold. cbn [Py.bind fst snd] in Hfold.
    destruct (action self batch auxiliaries n s) as [a |] eqn:Ha;
      cbn [Py.bind] in Hfold;
      [| by rewrite foldl_loop_body_Raise in Hfold].
    destruct (IH _ Hfold) as [Hall Hdom]. split.
    + intros name spec H. apply elem_of_cons in H as [[= -> ->] | H]; eauto.
    + intros name. rewrite Hdom, fmap_cons, elem_of_cons. cbn [fst].
      destruct (decide (n = name)) as [-> | Hne].
      * rewrite lookup_insert_eq. split; [intros _; right; by left | eauto].
      * rewrite lookup_insert_ne by done.
        split; [intros [H | H]; auto | intros [H | [-> | H]]; auto]. done.
Qed.

Lemma lookup_of_Ok (actions : gmap string Tensor) (name : string) (t : Tensor) r :
  Ok (A:=Tensor) <$> actions !! name = Some r -> r = Ok t ->
  actions !! name = Some t.
Proof.
  intros H ->. destruct (actions !! name); simpl in H; [| done].
  by injection H as ->.
Qed.

(** When [core_act] returns, it was called without internals, it returns
    no internals, and [actions] holds, for every action of the spec, the
    tensor that [action] has built. *)
Lemma core_act_inv self batch internals auxiliaries deterministic actions internals' :
  core_act self batch internals auxiliaries deterministic = Ok (actions, internals') ->
  size internals = 0%nat
  /\ internals' = ∅
  /\ (forall name spec, actions_spec self !! name = Some spec ->
        exists a, action self batch auxiliaries name spec = Ok a
                  /\ actions !! name = Some a)
  /\ (forall name : string,
        is_Some (actions !! name) <-> is_Some (actions_spec self !! name)).
Proof.
  unfold core_act. intros H.
  destruct (Nat.eqb_spec (size internals) 0) as [Hsize | Hsize]; [| done].
  simpl in H.
  destruct (foldl (loop_body self batch auxiliaries) (Ok ∅)
              (map_to_list (actions_spec self))) as [acts | e] eqn:Hfold; [| done].
  simpl in H. injection H as <- <-.
  destruct (foldl_loop_body_inv _ _ _ _ _ _ Hfold) as [Hall Hdom].
  destruct (foldl_loop_body self batch auxiliaries
              (map_to_list (actions_spec self)) ∅
              (NoDup_fst_map_to_list _) Hall) as (acts' & Hfold' & Hin & _).
  rewrite Hfold in Hfold'. injection Hfold' as <-.
  split; [done |]. split; [done |]. split.
  - intros name spec Hs. apply elem_of_map_to_list in Hs.
    destruct (Hall name spec Hs) as [a Ha]. exists a. split; [done |].
    eapply lookup_of_Ok; [by apply Hin | done].
  - intros name. rewrite Hdom, lookup_empty, list_elem_of_fmap. split.
    + intros [[x H] | [[k s] [-> H]]]; [done |].
      apply elem_of_map_to_list in H. simpl. eauto.
    + intros [s H]. right. exists (name, s). split; [done |].
      by apply elem_of_map_to_list.
Qed.

(** Outside the first two branches: zero for a spec of type ['bool'];
    for another spec with both bounds, their mean as a constant of type
    float, and a [TypeError] for a spec of another type; the bound that is
    given, or zero, for the others. *)
Lemma action_unmasked self batch auxiliaries (name : string) spec :
  action_values self !! name = None ->
  int_action_masking self spec = None ->
  action self batch auxiliaries name spec
  = if String.eqb (type spec) "bool"
    then Ok (Zeros ([batch] ++ shape spec) (type spec))
    else match min_value spec, max_value spec with
         | Some lo, Some hi =>
             do a <- constant_of_float (lo + (1 # 2) * (hi - lo)) (type spec);
             Ok (Fill ([batch] ++ shape spec) a)
         | _, _ => Ok (action_by_bounds batch spec)
         end.
Proof.
  intros Hv Hm. unfold action, action_by_bounds, bound_of_non_bool.
  rewrite Hv, Hm.
  destruct (String.eqb (type spec) "bool"); simpl; [done |].
  destruct (min_value spec), (max_value spec); reflexivity.
Qed.

(** A model with one action and no user-supplied values, masking off. *)
Definition single_action (name : string) (spec : TensorSpec) : ConstantModel :=
  mkConstantModel {[name := spec]} ∅ (mkConfig false).

(** C10, at an action of type int with the bounds 0 and 4, no
    user-supplied value and no masking: the mean of the bounds is the
    Python float [2.0], of which [tf_util.constant] makes no constant of
    type int.  [core_act] raises a [TypeError]; by the specification it
    returns the mean 2 over the batch. *)
Theorem core_act_int_midpoint_raises :
  core_act (single_action "move" (mkTensorSpec "int" [] (Some 0) (Some 4) None))
    2 ∅ ∅ (Input "deterministic")
  = Raise (mkExc TypeError [PyStr "int"; PyFloat (0 + (1 # 2) * (4 - 0))])
  /\ action_by_bounds 2 (mkTensorSpec "int" [] (Some 0) (Some 4) None)
     = Fill [2%Z] (Constant (Num (0 + (1 # 2) * (4 - 0))) "int").
Proof. split; [vm_compute |]; reflexivity. Qed.

End ConstantModel.

(** * Further properties of the same sources *)

(** ** plus.py: deltas of different lengths, and [Plus] inside [Plus] *)

Module PlusCompose.
Import TF TFFacts Plus.

Section Compose.

Context {V : Type} (add : V -> V -> V) {Args Kwargs : Type}.

Implicit Types (self : Plus.Plus V Args Kwargs).

(** [zip] pairs up as many deltas as the shorter list has. *)
Lemma fst_zip_take {A B} (l : list A) (k : list B) :
  (zip l k).*1 = take (length k) l.
Proof.
  revert k. induction l as [| x l IH]; intros [| y k]; simpl; try done.
  by rewrite IH.
Qed.

Lemma snd_zip_take {A B} (l : list A) (k : list B) :
  (zip l k).*2 = take (length l) k.
Proof.
  revert k. induction l as [| x l IH]; intros [| y k]; simpl; try done.
  by rewrite IH.
Qed.

Lemma mapM_take {A B} (f : A -> option B) n l vs :
  mapM f l = Some vs -> mapM f (take n l) = Some (take n vs).
Proof. rewrite !mapM_Some. apply Forall2_take. Qed.

(** The values of what [step] returns, whatever the lengths. *)
Lemma step_values self arguments kwargs stack stack1 stack2 (g0 g1 g2 : Graph V)
    deltas1 deltas2 (d1 d2 : list V) :
  run (optimizer1 self arguments kwargs) stack g0 = (deltas1, stack1, g1) ->
  run (optimizer2 self arguments kwargs) (enter deltas1 stack1) g1
  = (deltas2, stack2, g2) ->
  mapM (value add g1) deltas1 = Some d1 ->
  mapM (value add g2) deltas2 = Some d2 ->
  exists out stack3 g3,
    run (step self arguments kwargs) stack g0 = (out, stack3, g3)
    /\ length out = min (length d1) (length d2)
    /\ mapM (value add g3) out = Some (zip_with add d1 d2).
Proof.
  intros H1 H2 Hd1 Hd2.
  pose proof (length_mapM _ _ _ Hd1) as Hl1.
  pose proof (length_mapM _ _ _ Hd2) as Hl2.
  destruct (run_step V Args Kwargs self arguments kwargs stack stack1 stack2
              g0 g1 g2 deltas1 deltas2 H1 H2)
    as (stack3 & sums & Hrun & _ & Hsums).
  eexists _, _, _. split; [exact Hrun |].
  split.
  - rewrite length_seq, length_zip_with. lia.
  - destruct (run_created (optimizer2 self arguments kwargs)
                (enter deltas1 stack1) g1) as (ops2 & Hg2).
    rewrite H2 in Hg2. simpl in Hg2.
    rewrite <- (zip_with_take_both add d1 d2).
    apply value_list_of_sums; [exact Hsums | |].
    + rewrite fst_zip_take, Hl2. apply mapM_take.
      subst g2. by apply mapM_value_prefix.
    + rewrite snd_zip_take, Hl1. by apply mapM_take.
Qed.


(** A [Plus] is an optimizer itself. *)
Definition as_optimizer self : Optimizer V Args Kwargs :=
  fun arguments kwargs => step self arguments kwargs.

(** X2. [Plus] composes: with a [Plus] of [a] and [b] as its first
    optimizer and [c] as its second, [step] returns the sums
    [(da + db) + dc] of the deltas of the three. *)
Theorem step_of_nested_plus (a b c : Optimizer V Args Kwargs) arguments kwargs
    stack sa sb sab sc (g0 g1 g2 g3 g4 : Graph V) ta tb tab tc
    (da db dc : list V) :
  run (a arguments kwargs) stack g0 = (ta, sa, g1) ->
  run (b arguments kwargs) (enter ta sa) g1 = (tb, sb, g2) ->
  run (step (mkPlus a b) arguments kwargs) stack g0 = (tab, sab, g3) ->
  run (c arguments kwargs) (enter tab sab) g3 = (tc, sc, g4) ->
  mapM (value add g1) ta = Some da ->
  mapM (value add g2) tb = Some db ->
  mapM (value add g4) tc = Some dc ->
  exists out stack5 g5,
    run (step (mkPlus (as_optimizer (mkPlus a b)) c) arguments kwargs) stack g0
    = (out, stack5, g5)
    /\ mapM (value add g5) out = Some (zip_with add (zip_with add da db) dc).
Proof.
  intros Ha Hb Hab Hc Hda Hdb Hdc.
  destruct (step_values (mkPlus a b) arguments kwargs stack sa sb g0 g1 g2
              ta tb da db Ha Hb Hda Hdb)
    as (out1 & stack3' & g3' & Hrun1 & _ & Hval1).
  rewrite Hab in Hrun1. injection Hrun1 as <- <- <-.
  destruct (step_values (mkPlus (as_optimizer (mkPlus a b)) c) arguments kwargs
              stack sab sc g0 g3 g4 tab tc (zip_with add da db) dc
              Hab Hc Hval1 Hdc)
    as (out & stack5 & g5 & Hrun & _ & Hval).
  by exists out, stack5, g5.
Qed.

End Compose.


Lemma step_of_nested_plus_witness :
  exists out stack5 g5,
    run (step (mkPlus (as_optimizer
                         (mkPlus (fun _ _ => constants [1; 2]%Z)
                                 (fun _ _ => constants [10; 20]%Z)))
                      (fun _ _ => constants [100; 200]%Z)) tt tt) [] []
    = (out, stack5, g5)
    /\ mapM (value Z.add g5) out = Some [111; 222]%Z.
Proof.
  exact (step_of_nested_plus Z.add
           (fun _ _ => constants [1; 2]%Z) (fun _ _ => constants [10; 20]%Z)
           (fun _ _ => constants [100; 200]%Z) tt tt []
           [] _ [] _ [] _ _ _ _ [0; 1] [2; 3] [4; 5] [6; 7]
           [1; 2]%Z [10; 20]%Z [100; 200]%Z
           eq_refl eq_refl eq_refl eq_refl eq_refl eq_refl eq_refl).
Defined.

End PlusCompose.

(** ** model.py: more on discounted rewards *)

Module ModelRewards.
Import TFOps Model.

Local Open Scope Q_scope.

Lemma hd_app_nonempty {A} (l1 l2 : list A) a b : l1 <> [] -> hd a (l1 ++ l2) = hd b l1.
Proof. by destruct l1. Qed.

(** The returns of steps that end in a terminal step do not depend on what
    follows. *)
Lemma returns_app_terminal d f f' s1 r s2 :
  returns d f (s1 ++ (r, true) :: s2)
  = returns d f' (s1 ++ [(r, true)]) ++ returns d f s2.
Proof.
  induction s1 as [| [r0 t0] s1 IH]; [done |].
  cbn [app returns]. rewrite IH. cbn [app]. f_equal.
  destruct t0; [done |]. do 2 f_equal.
  apply hd_app_nonempty.
  intros H. apply (f_equal length) in H.
  rewrite returns_length, length_app in H. simpl in H. lia.
Qed.

(** X4. Episodes concatenated in one batch are processed independently:
    when the first sequence ends in a terminal step, the discounted
    cumulative reward of the concatenation is the concatenation of the two
    results, whatever final reward the first is computed with. *)
Theorem discounted_cumulative_reward_of_episodes scan_unequal
    (reward1 reward2 : list Q) (terminal1 terminal2 : list bool)
    (discount final_reward final_reward' : Q) :
  length reward1 = length terminal1 ->
  length reward2 = length terminal2 ->
  last terminal1 = Some true ->
  exists R1 R2,
    tf_discounted_cumulative_reward scan_unequal
      reward1 terminal1 discount final_reward' = Ok R1
    /\ tf_discounted_cumulative_reward scan_unequal
         reward2 terminal2 discount final_reward = Ok R2
    /\ tf_discounted_cumulative_reward scan_unequal
         (reward1 ++ reward2) (terminal1 ++ terminal2)
         discount final_reward = Ok (R1 ++ R2).
Proof.
  intros Hlen1 Hlen2 Hlast.
  eexists _, _.
  split; [by apply tf_discounted_cumulative_reward_returns |].
  split; [by apply tf_discounted_cumulative_reward_returns |].
  rewrite tf_discounted_cumulative_reward_returns by (rewrite !length_app; lia).
  f_equal. rewrite zip_with_app by done.
  apply last_Some in Hlast as [t1 ->].
  destruct reward1 as [| r0 r1'] using rev_ind;
    [rewrite length_app in Hlen1; simpl in Hlen1; lia |].
  clear IHr1'. rewrite !length_app in Hlen1. simpl in Hlen1.
  rewrite zip_with_app by lia. simpl.
  rewrite <- app_assoc. simpl. apply returns_app_terminal.
Qed.

Lemma discounted_cumulative_reward_of_episodes_witness :
  exists R1 R2,
    tf_discounted_cumulative_reward scan_shorter
      [1; 2] [false; true] (1 # 2) 7 = Ok R1
    /\ tf_discounted_cumulative_reward scan_shorter
         [3] [false] (1 # 2) 8 = Ok R2
    /\ tf_discounted_cumulative_reward scan_shorter
         ([1; 2] ++ [3]) ([false; true] ++ [false])
         (1 # 2) 8 = Ok (R1 ++ R2).
Proof.
  exact (discounted_cumulative_reward_of_episodes scan_shorter
           [1; 2] [3] [false; true] [false]
           (1 # 2) 8 7 eq_refl eq_refl eq_refl).
Defined.

End ModelRewards.

(** ** model.py: the variable registry *)

Module ModelVariables.

Section Registry.

(** TensorFlow variables, whatever they are. *)
Variable Var : Type.

(** [custom_getter] of [Model.__init__]: the variable comes from
    [getter]; it is entered in [self.variables] unless its name starts
    with ['optimization']. *)
Definition custom_getter (variables : gmap string Var)
    (getter : string -> Var) (name : string) : Var * gmap string Var :=
  let variable := getter name in
  (variable,
   if negb (String.prefix "optimization" name)
   then <[name := variable]> variables
   else variables).

(** [self.variables] after the given variables were created one after the
    other through [custom_getter], starting from [self.variables = dict()]. *)
Definition created (calls : list ((string -> Var) * string)) : gmap string Var :=
  foldl (fun variables call => (custom_getter variables call.1 call.2).2) ∅ calls.

(** [sorted(d)] on the keys of a dict with string keys *)
Definition sorted (d : gmap string Var) : list string :=
  merge_sort String.le ((map_to_list d).*1).

(** [Model.get_variables]; [None] stands for the [KeyError] of
    [self.variables[key]]. *)
Definition get_variables (variables : gmap string Var) : option (list Var) :=
  mapM (fun key => variables !! key) (sorted variables).

Lemma foldl_custom_getter calls (acc : gmap string Var) (name : string) :
  is_Some (foldl (fun variables call => (custom_getter variables call.1 call.2).2)
             acc calls !! name)
  <-> is_Some (acc !! name)
      \/ (name ∈ calls.*2 /\ String.prefix "optimization" name = false).
Proof.
  revert acc. induction calls as [| [getter n] calls IH]; intros acc.
  - simpl. split; [by left | intros [H | [H _]]; [done |]].
    by apply elem_of_nil in H.
  - cbn [foldl]. rewrite IH. unfold custom_getter. cbn [fst snd].
    rewrite fmap_cons. cbn [snd]. rewrite elem_of_cons.
    destruct (String.prefix "optimization" n) eqn:Hp; simpl.
    + split; [intros [H | [H1 H2]]; auto | intros [H | [[-> | H1] H2]]; auto].
      congruence.
    + destruct (decide (n = name)) as [-> | Hne].
      * rewrite lookup_insert_eq. split; [intros _; right; auto | intros _; left; eauto].
      * rewrite lookup_insert_ne by done.
        split; [intros [H | [H1 H2]]; auto | intros [H | [[-> | H1] H2]]; auto].
        done.
Qed.

(** X6. However many variables are created through [custom_getter], the
    registry holds a variable under a name exactly when a variable of that
    name was created and the name does not start with ['optimization']. *)
Theorem created_variables_exclude_optimization
    (calls : list ((string -> Var) * string)) (name : string) :
  is_Some (created calls !! name)
  <-> name ∈ calls.*2 /\ String.prefix "optimization" name = false.
Proof.
  unfold created. rewrite foldl_custom_getter. rewrite lookup_empty.
  split; [intros [[x H] | H]; [done | done] | by right].
Qed.

Lemma sorted_keys (d : gmap string Var) :
  Sorted String.le (sorted d)
  /\ NoDup (sorted d)
  /\ forall key, key ∈ sorted d <-> is_Some (d !! key).
Proof.
  unfold sorted. split; [apply Sorted_merge_sort; apply _ |].
  split.
  - rewrite merge_sort_Permutation. apply NoDup_fst_map_to_list.
  - intros key. rewrite merge_sort_Permutation.
    rewrite list_elem_of_fmap. split.
    + intros [[k v] [-> H]]. apply elem_of_map_to_list in H. simpl. eauto.
    + intros [v H]. exists (key, v). split; [done |].
      by apply elem_of_map_to_list.
Qed.

(** X7. [get_variables] never misses a key: it returns one variable for
    every name of the registry, each name once, in ascending order of the
    names. *)
Theorem get_variables_sorted_by_name (variables : gmap string Var) :
  exists vs,
    get_variables variables = Some vs
    /\ Forall2 (fun key v => variables !! key = Some v) (sorted variables) vs
    /\ Sorted String.le (sorted variables)
    /\ NoDup (sorted variables)
    /\ (forall key, key ∈ sorted variables <-> is_Some (variables !! key))
    /\ length vs = size variables.
Proof.
  destruct (sorted_keys variables) as (Hs & Hnd & Hkeys).
  assert (exists vs, Forall2 (fun key v => variables !! key = Some v)
                       (sorted variables) vs) as [vs Hvs].
  { assert (Forall (fun key => is_Some (variables !! key)) (sorted variables)) as Hall.
    { apply Forall_forall. intros key. apply Hkeys. }
    clear -Hall. induction Hall as [| key keys [v Hv] _ [vs IH]].
    - exists []. constructor.
    - exists (v :: vs). by constructor. }
  exists vs. split; [by apply mapM_Some |].
  do 4 (split; [done |]).
  rewrite <- (Forall2_length _ _ _ Hvs). unfold sorted.
  rewrite merge_sort_Permutation, length_fmap. apply length_map_to_list.
Qed.

End Registry.

End ModelVariables.

(** ** constant.py: the constructor, and what [core_act] does with it *)

Module ConstantModelInit.
Import Core ConstantModel.

Local Open Scope Q_scope.

(** [value < bound] as Python compares a scalar with a number: false of
    NaN; [True] counts as 1 and [False] as 0. *)
Definition scalar_lt (value : Scalar) (bound : Q) : bool :=
  match value with
  | Num q => negb (Qle_bool bound q)
  | Infinity negative => negative
  | NotANumber => false
  | Bool b => negb (Qle_bool bound (if b then 1 else 0))
  end.

(** [value > bound], false of NaN as well. *)
Definition scalar_gt (value : Scalar) (bound : Q) : bool :=
  match value with
  | Num q => negb (Qle_bool q bound)
  | Infinity negative => negb negative
  | NotANumber => false
  | Bool b => negb (Qle_bool (if b then 1 else 0) bound)
  end.

Definition scalar_Value (v : Scalar) : Value :=
  match v with
  | Num q => PyFloat q
  | Infinity negative => PyInf negative
  | NotANumber => PyNaN
  | Bool b => PyBool b
  end.

Section Init.

(** [spec.py_type()(value)]: the given value converted to the Python type
    of the spec, or the exception of the conversion. *)
Variable py_type : TensorSpec -> Value -> Result Scalar.

(** [spec.type != 'bool' and spec.min_value is not None and
    value < spec.min_value] *)
Definition below_min (spec : TensorSpec) (value : Scalar) : bool :=
  negb (String.eqb (type spec) "bool")
  && match min_value spec with
     | Some lo => scalar_lt value lo
     | None => false
     end.

(** [spec.type != 'bool' and spec.max_value is not None and
    value > spec.max_value] *)
Definition above_max (spec : TensorSpec) (value : Scalar) : bool :=
  negb (String.eqb (type spec) "bool")
  && match max_value spec with
     | Some hi => scalar_gt value hi
     | None => false
     end.

(** The error both checks raise. *)
Definition value_error (name : string) (value : Scalar) : Exc :=
  TensorforceError_value "ConstantAgent" ("action_values[" ++ name ++ "]")
    (scalar_Value value) "> max_value".

(** One turn of the loop of [ConstantModel.__init__]. *)
Definition store (action_values : gmap string Value)
    (stored : Result (gmap string Scalar)) (item : string * TensorSpec)
  : Result (gmap string Scalar) :=
  do stored <- stored;
  match action_values !! item.1 with
  | None => Ok stored
  | Some raw =>
      do value <- py_type item.2 raw;
      if below_min item.2 value then Raise (value_error item.1 value)
      else if above_max item.2 value then Raise (value_error item.1 value)
      else Ok (<[item.1 := value]> stored)
  end.

(** [ConstantModel.__init__], from where [Model.__init__] has set
    [self.actions_spec] and [self.config]. *)
Definition __init__ (actions_spec : gmap string TensorSpec) (config : Config)
    (action_values : option (gmap string Value)) : Result ConstantModel :=
  do stored <-
    match action_values with
    | None => Ok ∅
    | Some given => foldl (store given) (Ok ∅) (map_to_list actions_spec)
    end;
  Ok (mkConstantModel actions_spec stored config).

(** What the two checks let through for a spec that is not bool: a number
    within the bounds the spec gives; an infinity where the spec has no
    bound on its side; NaN, whatever the bounds. *)
Definition passes_bounds (spec : TensorSpec) (v : Scalar) : Prop :=
  type spec <> "bool" ->
  match v with
  | Num q =>
      (forall lo, min_value spec = Some lo -> lo <= q)
      /\ (forall hi, max_value spec = Some hi -> q <= hi)
  | Infinity negative =>
      if negative then min_value spec = None else max_value spec = None
  | NotANumber => True
  | Bool b =>
      (forall lo, min_value spec = Some lo -> lo <= (if b then 1 else 0))
      /\ (forall hi, max_value spec = Some hi -> (if b then 1 else 0) <= hi)
  end.

(** Every conversion of a given value of an action of the spec returns. *)
Definition conversions_return (actions_spec : gmap string TensorSpec)
    (given : gmap string Value) : Prop :=
  forall (name : string) spec raw,
    actions_spec !! name = Some spec -> given !! name = Some raw ->
    exists v, py_type spec raw = Ok v.

Lemma checks_pass spec v :
  below_min spec v = false -> above_max spec v = false -> passes_bounds spec v.
Proof.
  unfold below_min, above_max, passes_bounds. intros Hlo Hhi Hty.
  apply String.eqb_neq in Hty. rewrite Hty in Hlo, Hhi. simpl in Hlo, Hhi.
  destruct v as [q | negative | | b]; simpl in Hlo, Hhi.
  - split.
    + intros lo E. rewrite E in Hlo. apply negb_false_iff in Hlo.
      by apply Qle_bool_iff.
    + intros hi E. rewrite E in Hhi. apply negb_false_iff in Hhi.
      by apply Qle_bool_iff.
  - destruct negative; simpl in *.
    + by destruct (min_value spec).
    + by destruct (max_value spec).
  - done.
  - split.
    + intros lo E. rewrite E in Hlo. apply negb_false_iff in Hlo.
      by apply Qle_bool_iff.
    + intros hi E. rewrite E in Hhi. apply negb_false_iff in Hhi.
      by apply Qle_bool_iff.
Qed.

Lemma checks_pass_inv spec v :
  passes_bounds spec v -> below_min spec v = false /\ above_max spec v = false.
Proof.
  unfold below_min, above_max, passes_bounds. intros H.
  destruct (String.eqb_spec (type spec) "bool") as [Hty | Hty]; [done |].
  specialize (H Hty). simpl.
  destruct v as [q | negative | | b]; simpl.
  - destruct H as [Hlo Hhi]. split.
    + destruct (min_value spec) as [lo |]; [| done].
      apply negb_false_iff, Qle_bool_iff. by apply Hlo.
    + destruct (max_value spec) as [hi |]; [| done].
      apply negb_false_iff, Qle_bool_iff. by apply Hhi.
  - destruct negative; rewrite H; by destruct (min_value spec), (max_value spec).
  - by destruct (min_value spec), (max_value spec).
  - destruct H as [Hlo Hhi]. split.
    + destruct (min_value spec) as [lo |]; [| done].
      apply negb_false_iff, Qle_bool_iff. by apply Hlo.
    + destruct (max_value spec) as [hi |]; [| done].
      apply negb_false_iff, Qle_bool_iff. by apply Hhi.
Qed.

Lemma checks_fail spec q :
  type spec <> "bool" ->
  (exists lo, min_value spec = Some lo /\ q < lo)
  \/ (exists hi, max_value spec = Some hi /\ hi < q) ->
  below_min spec (Num q) = true \/ above_max spec (Num q) = true.
Proof.
  unfold below_min, above_max. intros Hty H.
  apply String.eqb_neq in Hty. rewrite Hty. simpl.
  destruct H as [(lo & -> & H) | (hi & -> & H)]; [left | right];
    apply negb_true_iff; apply not_true_is_false; intros E;
    apply Qle_bool_iff in E; by apply Qlt_not_le in H.
Qed.

Lemma foldl_store_Raise given e items :
  foldl (store given) (Raise e) items = Raise e.
Proof. induction items as [| item items IH]; [done | exact IH]. Qed.

(** What the loop has stored when it gets through. *)
Lemma foldl_store_Ok given (items : list (string * TensorSpec))
    (acc stored : gmap string Scalar) :
  NoDup (items.*1) ->
  foldl (store given) (Ok acc) items = Ok stored ->
  (forall name spec raw, (name, spec) ∈ items -> given !! name = Some raw ->
     exists v, py_type spec raw = Ok v
               /\ stored !! name = Some v
               /\ passes_bounds spec v)
  /\ (forall name, name ∉ items.*1 \/ given !! name = None ->
        stored !! name = acc !! name).
Proof.
  revert acc. induction items as [| [n s] items IH]; intros acc Hnd Hfold.
  - simpl in Hfold. injection Hfold as <-. split; [| done].
    intros name spec raw H. by apply elem_of_nil in H.
  - simpl in Hnd. apply NoDup_cons in Hnd as [Hn Hnd].
    cbn [foldl] in Hfold. unfold store at 2 in Hfold. cbn [Py.bind fst snd] in Hfold.
    destruct (given !! n) as [raw0 |] eqn:Hg.
    + destruct (py_type s raw0) as [v0 | e0] eqn:Hconv; cbn [Py.bind] in Hfold;
        [| by rewrite foldl_store_Raise in Hfold].
      destruct (below_min s v0) eqn:Hlo;
        [by rewrite foldl_store_Raise in Hfold |].
      destruct (above_max s v0) eqn:Hhi;
        [by rewrite foldl_store_Raise in Hfold |].
      destruct (IH _ Hnd Hfold) as [Hin Hout]. split.
      * intros name spec raw H Hraw.
        apply elem_of_cons in H as [[= -> ->] | H]; [| by apply Hin].
        rewrite Hg in Hraw. injection Hraw as <-.
        exists v0. split; [done |]. split; [| by apply checks_pass].
        rewrite Hout by (by left). apply lookup_insert_eq.
      * intros name H. rewrite Hout.
        -- apply lookup_insert_ne. intros ->.
           destruct H as [H | H]; [| congruence].
           apply H. rewrite fmap_cons. apply elem_of_cons. by left.
        -- destruct H as [H | H]; [left | by right].
           intros H'. apply H. rewrite fmap_cons. apply elem_of_cons. by right.
    + destruct (IH _ Hnd Hfold) as [Hin Hout]. split.
      * intros name spec raw H Hraw.
        apply elem_of_cons in H as [[= -> ->] | H]; [congruence | by apply Hin].
      * intros name H. apply Hout.
        destruct H as [H | H]; [left | by right].
        intros H'. apply H. rewrite fmap_cons. apply elem_of_cons. by right.
Qed.

(** The loop raises when a converted value is out of bounds: the error of
    a check, unless a conversion has raised before. *)
Lemma foldl_store_out_of_bounds given (items : list (string * TensorSpec))
    (acc : gmap string Scalar) name spec raw v :
  (name, spec) ∈ items -> given !! name = Some raw ->
  py_type spec raw = Ok v ->
  below_min spec v = true \/ above_max spec v = true ->
  exists e,
    foldl (store given) (Ok acc) items = Raise e
    /\ ((forall n s r, (n, s) ∈ items -> given !! n = Some r ->
           exists v', py_type s r = Ok v') ->
        exc_class e = TensorforceError).
Proof.
  intros Hin Hraw Hconv Hbad. revert acc.
  induction items as [| [n s] items IH]; intros acc; [by apply elem_of_nil in Hin |].
  cbn [foldl]. unfold store at 2. cbn [Py.bind fst snd].
  destruct (given !! n) as [raw0 |] eqn:Hg.
  - destruct (py_type s raw0) as [v0 | e0] eqn:Hconv0; cbn [Py.bind].
    + destruct (below_min s v0) eqn:Hlo;
        [rewrite foldl_store_Raise; by eexists |].
      destruct (above_max s v0) eqn:Hhi;
        [rewrite foldl_store_Raise; by eexists |].
      apply elem_of_cons in Hin as [[= -> ->] | Hin].
      * rewrite Hg in Hraw. injection Hraw as <-.
        rewrite Hconv0 in Hconv. injection Hconv as <-.
        destruct Hbad; congruence.
      * destruct (IH Hin (<[n := v0]> acc)) as (e & He & Hclass).
        exists e. split; [done |].
        intros Hall. apply Hclass. intros n0 s0 r H. apply Hall.
        apply elem_of_cons. by right.
    + rewrite foldl_store_Raise. exists e0. split; [done |].
      intros Hall. destruct (Hall n s raw0) as [v' Hv']; [| done |].
      * apply elem_of_cons. by left.
      * congruence.
  - apply elem_of_cons in Hin as [[= -> ->] | Hin]; [congruence |].
    destruct (IH Hin acc) as (e & He & Hclass).
    exists e. split; [done |].
    intros Hall. apply Hclass. intros n0 s0 r H. apply Hall.
    apply elem_of_cons. by right.
Qed.

(** The loop gets through when every given value converts and passes the
    two checks. *)
Lemma foldl_store_returns given (items : list (string * TensorSpec))
    (acc : gmap string Scalar) :
  (forall name spec raw, (name, spec) ∈ items -> given !! name = Some raw ->
     exists v, py_type spec raw = Ok v /\ passes_bounds spec v) ->
  exists stored, foldl (store given) (Ok acc) items = Ok stored.
Proof.
  revert acc. induction items as [| [n s] items IH]; intros acc Hall.
  - by exists acc.
  - cbn [foldl]. unfold store at 2. cbn [Py.bind fst snd].
    assert (forall name spec raw, (name, spec) ∈ items ->
              given !! name = Some raw ->
              exists v, py_type spec raw = Ok v /\ passes_bounds spec v) as Hrest.
    { intros name spec raw H. apply Hall. apply elem_of_cons. by right. }
    destruct (given !! n) as [raw0 |] eqn:Hg; [| by apply IH].
    destruct (Hall n s raw0) as (v0 & -> & Hpass);
      [apply elem_of_cons; by left | done |].
    cbn [Py.bind]. apply checks_pass_inv in Hpass as [-> ->].
    by apply IH.
Qed.

(** What the constructor has stored when it returns. *)
Lemma init_inv (actions_spec : gmap string TensorSpec) config
    (given : gmap string Value) self :
  __init__ actions_spec config (Some given) = Ok self ->
  ConstantModel.actions_spec self = actions_spec
  /\ (forall (name : string) spec raw,
        actions_spec !! name = Some spec -> given !! name = Some raw ->
        exists v, py_type spec raw = Ok v
                  /\ action_values self !! name = Some v
                  /\ passes_bounds spec v)
  /\ (forall (name : string) v,
        action_values self !! name = Some v ->
        exists spec raw,
          actions_spec !! name = Some spec /\ given !! name = Some raw
          /\ py_type spec raw = Ok v /\ passes_bounds spec v).
Proof.
  unfold __init__. intros H.
  destruct (foldl (store given) (Ok ∅) (map_to_list actions_spec))
    as [stored | e] eqn:Hfold; [| done].
  simpl in H. injection H as <-. simpl.
  destruct (foldl_store_Ok given _ ∅ stored (NoDup_fst_map_to_list _) Hfold)
    as [Hin Hout].
  split; [done |]. split.
  - intros name spec raw Hs Hg.
    apply (Hin name spec raw); [by apply elem_of_map_to_list | done].
  - intros name v Hv.
    destruct (given !! name) as [raw |] eqn:Hg;
      [| rewrite Hout, lookup_empty in Hv by (by right); done].
    destruct (actions_spec !! name) as [spec |] eqn:Hs.
    + destruct (Hin name spec raw) as (v' & Hconv & Hst & Hb);
        [by apply elem_of_map_to_list | done |].
      rewrite Hst in Hv. injection Hv as <-. by exists spec, raw.
    + rewrite Hout, lookup_empty in Hv; [done |]. left.
      intros H. apply list_elem_of_fmap in H as [[k s] [-> H]].
      apply elem_of_map_to_list in H. simpl in Hs. congruence.
Qed.

(** X8. When the constructor gets through, the constants it has stored
    are the given values of the actions of the spec, converted to the type
    of their action (values given for other names are dropped).  Of an
    action that is not bool, a stored number lies within the bounds its
    spec gives, and an infinity is stored only where the spec has no bound
    on its side; NaN is neither below nor above a bound.  The constructor
    does get through when every given value of an action of the spec
    converts to such a value: NaN passes both checks. *)
Theorem init_stores_values_within_bounds
    (actions_spec : gmap string TensorSpec) config (given : gmap string Value) :
  let passes spec v :=
    type spec <> "bool" ->
    match v with
    | Num q =>
        (forall lo, min_value spec = Some lo -> lo <= q)
        /\ (forall hi, max_value spec = Some hi -> q <= hi)
    | Infinity negative =>
        if negative then min_value spec = None
        else max_value spec = None
    | NotANumber => True
    | Bool b =>
        (forall lo, min_value spec = Some lo -> lo <= (if b then 1 else 0))
        /\ (forall hi, max_value spec = Some hi ->
              (if b then 1 else 0) <= hi)
    end in
  (forall self,
     __init__ actions_spec config (Some given) = Ok self ->
     ConstantModel.actions_spec self = actions_spec
     /\ (forall (name : string) spec raw,
           actions_spec !! name = Some spec -> given !! name = Some raw ->
           exists v, py_type spec raw = Ok v
                     /\ action_values self !! name = Some v)
     /\ (forall (name : string) v,
           action_values self !! name = Some v ->
           exists spec raw,
             actions_spec !! name = Some spec /\ given !! name = Some raw
             /\ py_type spec raw = Ok v /\ passes spec v))
  /\ ((forall (name : string) spec raw,
         actions_spec !! name = Some spec -> given !! name = Some raw ->
         exists v, py_type spec raw = Ok v /\ passes spec v) ->
      exists self, __init__ actions_spec config (Some given) = Ok self).
Proof.
  intros passes. split.
  - intros self H. destruct (init_inv _ _ _ _ H) as (Hspec & Hin & Hout).
    split; [done |]. split.
    + intros name spec raw Hs Hg.
      destruct (Hin name spec raw Hs Hg) as (v & Hconv & Hst & _). by exists v.
    + intros name v Hv.
      destruct (Hout name v Hv) as (spec & raw & Hs & Hg & Hconv & Hb).
      by exists spec, raw.
  - intros Hall. unfold __init__.
    destruct (foldl_store_returns given (map_to_list actions_spec) ∅)
      as [stored ->].
    + intros name spec raw H. apply Hall. by apply elem_of_map_to_list.
    + by eexists.
Qed.

(** X9. A value given for an action that is not bool which, converted to
    the type of the action, is a number below the action's lower bound or
    above its upper bound makes the constructor raise: a
    [TensorforceError], unless the conversion of a given value has raised
    before. *)
Theorem init_rejects_value_out_of_bounds
    (actions_spec : gmap string TensorSpec) config (given : gmap string Value)
    (name : string) spec raw q :
  actions_spec !! name = Some spec ->
  given !! name = Some raw ->
  py_type spec raw = Ok (Num q) ->
  type spec <> "bool" ->
  (exists lo, min_value spec = Some lo /\ q < lo)
  \/ (exists hi, max_value spec = Some hi /\ hi < q) ->
  exists e, __init__ actions_spec config (Some given) = Raise e
            /\ (conversions_return actions_spec given ->
                exc_class e = TensorforceError).
Proof.
  intros Hs Hg Hconv Hty Hbad. unfold __init__.
  destruct (foldl_store_out_of_bounds given (map_to_list actions_spec) ∅
              name spec raw (Num q)) as (e & -> & Hclass).
  - by apply elem_of_map_to_list.
  - done.
  - done.
  - by apply checks_fail.
  - exists e. split; [done |].
    intros Hall. apply Hclass. intros n s r H. apply Hall.
    by apply elem_of_map_to_list.
Qed.

End Init.

End ConstantModelInit.

Module ConstantModelAct.
Import Core ConstantModel ConstantModelInit.

Local Open Scope Q_scope.

(** X10. When [core_act] returns, it returns one action for every action
    of the spec and for no other name, and no internals. *)
Theorem core_act_returns_the_actions_of_the_spec
    self batch internals auxiliaries deterministic actions internals' :
  core_act self batch internals auxiliaries deterministic = Ok (actions, internals') ->
  internals' = ∅
  /\ forall name : string,
       is_Some (actions !! name) <-> is_Some (actions_spec self !! name).
Proof.
  intros H.
  destruct (core_act_inv _ _ _ _ _ _ _ H) as (_ & Hint & _ & Hdom).
  by split.
Qed.

(** X11. [core_act] returns only if it is called without internals, every
    action that takes the masking branch (no user-supplied value, masking
    enabled, type int with a number of values) finds its mask under
    [name + '_mask'] in the auxiliaries, and every action that takes the
    branch of the mean (no user-supplied value, outside masking, not bool,
    both bounds given) is of type float.  Otherwise it raises. *)
Theorem core_act_returns_only_if self batch internals auxiliaries deterministic :
  (exists result,
     core_act self batch internals auxiliaries deterministic = Ok result)
  -> size internals = 0%nat
     /\ (forall (name : string) spec num,
           actions_spec self !! name = Some spec ->
           action_values self !! name = None ->
           int_action_masking self spec = Some num ->
           is_Some (auxiliaries !! (name ++ "_mask")%string))
     /\ (forall (name : string) spec lo hi,
           actions_spec self !! name = Some spec ->
           action_values self !! name = None ->
           int_action_masking self spec = None ->
           type spec <> "bool" ->
           min_value spec = Some lo -> max_value spec = Some hi ->
           type spec = "float").
Proof.
  intros [[actions internals'] H].
  destruct (core_act_inv _ _ _ _ _ _ _ H) as (Hsize & _ & Hall & _).
  split; [done |]. split.
  - intros name spec num Hs Hv Hm.
    destruct (Hall name spec Hs) as (a & Ha & _).
    unfold action in Ha. rewrite Hv, Hm in Ha. unfold getitem in Ha.
    destruct (auxiliaries !! (name ++ "_mask")%string); [eauto | done].
  - intros name spec lo hi Hs Hv Hm Hty Hlo Hhi.
    destruct (Hall name spec Hs) as (a & Ha & _).
    rewrite (action_unmasked self batch auxiliaries name spec Hv Hm) in Ha.
    apply String.eqb_neq in Hty. rewrite Hty, Hlo, Hhi in Ha.
    unfold constant_of_float in Ha.
    destruct (String.eqb_spec (type spec) "float"); [done | discriminate Ha].
Qed.

(** X19. When [core_act] returns, an action without a user-supplied value
    and outside int-action masking is, over the whole batch: zero for an
    action of type bool; for an action of another type with both bounds,
    which is then of type float, the constant
    [min_value + 0.5 * (max_value - min_value)]; [min_value] when only it
    is given; [max_value] when only it is given; zero when there is no
    bound.  [core_observe] always returns the constant [False]. *)
Theorem core_act_action_by_bounds
    self batch internals auxiliaries deterministic actions internals'
    (name : string) spec :
  core_act self batch internals auxiliaries deterministic = Ok (actions, internals') ->
  actions_spec self !! name = Some spec ->
  action_values self !! name = None ->
  int_action_masking self spec = None ->
  (type spec = "bool" ->
   actions !! name = Some (Zeros ([batch] ++ shape spec) "bool"))
  /\ (type spec <> "bool" ->
      match min_value spec, max_value spec with
      | Some lo, Some hi =>
          type spec = "float"
          /\ actions !! name
             = Some (Fill ([batch] ++ shape spec)
                       (Constant (Num (lo + (1 # 2) * (hi - lo))) "float"))
      | Some lo, None =>
          actions !! name
          = Some (Fill ([batch] ++ shape spec) (Constant (Num lo) (type spec)))
      | None, Some hi =>
          actions !! name
          = Some (Fill ([batch] ++ shape spec) (Constant (Num hi) (type spec)))
      | None, None =>
          actions !! name = Some (Zeros ([batch] ++ shape spec) (type spec))
      end)
  /\ (forall states internals0 auxiliaries0 actions0 terminal reward,
        core_observe self states internals0 auxiliaries0 actions0 terminal reward
        = Constant (Bool false) "bool").
Proof.
  intros H Hs Hv Hm.
  destruct (core_act_inv _ _ _ _ _ _ _ H) as (_ & _ & Hall & _).
  destruct (Hall name spec Hs) as (a & Ha & Hact).
  rewrite (action_unmasked self batch auxiliaries name spec Hv Hm) in Ha.
  split; [| split; [| done]].
  - intros Hty. rewrite Hty in Ha. simpl in Ha. injection Ha as <-.
    exact Hact.
  - intros Hty. apply String.eqb_neq in Hty. rewrite Hty in Ha.
    unfold action_by_bounds in Ha.
    destruct (min_value spec) as [lo |], (max_value spec) as [hi |];
      try (injection Ha as <-; exact Hact).
    unfold constant_of_float in Ha.
    destruct (String.eqb_spec (type spec) "float") as [Hf | Hf];
      [| discriminate Ha].
    simpl in Ha. injection Ha as <-. split; [done |]. by rewrite Hact, Hf.
Qed.

Section UserValues.

Variable py_type : TensorSpec -> Value -> Result Scalar.

(** X13. After the constructor has accepted the given values, when
    [core_act] returns, it fills an action for which a value was given with
    that value converted to the type of the action, whatever the bounds of
    the spec and whether or not int-action masking applies to it.  For an
    action that is not bool, such a value that is a number lies within the
    bounds of the spec. *)
Theorem core_act_returns_the_given_value
    (specs : gmap string TensorSpec) config (given : gmap string Value) self
    batch internals auxiliaries deterministic actions internals'
    (name : string) spec raw :
  __init__ py_type specs config (Some given) = Ok self ->
  core_act self batch internals auxiliaries deterministic = Ok (actions, internals') ->
  specs !! name = Some spec ->
  given !! name = Some raw ->
  exists v,
    py_type spec raw = Ok v
    /\ actions !! name
       = Some (Fill ([batch] ++ shape spec) (Constant v (type spec)))
    /\ (type spec <> "bool" -> forall q, v = Num q ->
        (forall lo, min_value spec = Some lo -> lo <= q)
        /\ (forall hi, max_value spec = Some hi -> q <= hi)).
Proof.
  intros Hinit Hact Hs Hg.
  destruct (init_inv py_type specs config given self Hinit) as (Hspecs & Hin & _).
  destruct (Hin name spec raw Hs Hg) as (v & Hconv & Hst & Hb).
  destruct (core_act_inv _ _ _ _ _ _ _ Hact) as (_ & _ & Hall & _).
  rewrite <- Hspecs in Hs.
  destruct (Hall name spec Hs) as (a & Ha & Hlook).
  unfold action in Ha. rewrite Hst in Ha. injection Ha as <-.
  exists v. split; [done |]. split; [done |].
  intros Hty q ->. by apply Hb.
Qed.

End UserValues.

(** A model with the one action [move], a float in [0, 1] of shape [3]. *)
Definition move_spec : TensorSpec := mkTensorSpec "float" [3%Z] (Some 0) (Some 1) None.

(** A conversion to run the examples with: [float(value)] of a number or
    a bool. *)
Definition to_float (_ : TensorSpec) (value : Value) : Result Scalar :=
  match value with
  | PyFloat q => Ok (Num q)
  | PyInt z => Ok (Num (inject_Z z))
  | PyBool b => Ok (Num (if b then 1 else 0))
  | PyInf negative => Ok (Infinity negative)
  | PyNaN => Ok NotANumber
  | _ => Raise (mkExc TypeError [value])
  end.

Lemma init_move_half :
  __init__ to_float {["move" := move_spec]} (mkConfig true)
    (Some {["move" := PyFloat (1 # 2); "jump" := PyFloat 5]})
  = Ok (mkConstantModel {["move" := move_spec]} {["move" := Num (1 # 2)]}
          (mkConfig true)).
Proof. vm_compute. reflexivity. Qed.

(** NaN passes both checks: the constructor stores it for an action with
    bounds, and [core_act] fills the action with it. *)
Example init_accepts_nan :
  __init__ to_float {["move" := move_spec]} (mkConfig true)
    (Some {["move" := PyNaN]})
  = Ok (mkConstantModel {["move" := move_spec]} {["move" := NotANumber]}
          (mkConfig true))
  /\ core_act
       (mkConstantModel {["move" := move_spec]} {["move" := NotANumber]}
          (mkConfig true))
       2 ∅ ∅ (Input "deterministic")
     = Ok ({["move" := Fill [2%Z; 3%Z] (Constant NotANumber "float")]}, ∅).
Proof. split; vm_compute; reflexivity. Qed.

Lemma init_stores_values_within_bounds_witness :
  action_values
    (mkConstantModel {["move" := move_spec]} {["move" := Num (1 # 2)]} (mkConfig true))
    !! "move" = Some (Num (1 # 2))
  /\ (forall v,
        action_values
          (mkConstantModel {["move" := move_spec]} {["move" := Num (1 # 2)]}
             (mkConfig true)) !! "jump" = Some v -> False).
Proof.
  destruct (init_stores_values_within_bounds to_float {["move" := move_spec]}
              (mkConfig true) {["move" := PyFloat (1 # 2); "jump" := PyFloat 5]})
    as [Hstored _].
  destruct (Hstored _ init_move_half) as (_ & Hin & Hout).
  split.
  - destruct (Hin "move" move_spec (PyFloat (1 # 2))) as (v & Hconv & Hst);
      [reflexivity | reflexivity |].
    injection Hconv as <-. exact Hst.
  - intros v Hv. destruct (Hout "jump" v Hv) as (spec & raw & Hs & _).
    discriminate Hs.
Defined.

Lemma init_rejects_value_out_of_bounds_witness :
  exists e,
    __init__ to_float {["move" := move_spec]} (mkConfig false)
      (Some {["move" := PyFloat 2]})
    = Raise e
    /\ exc_class e = TensorforceError.
Proof.
  destruct (init_rejects_value_out_of_bounds to_float {["move" := move_spec]}
              (mkConfig false) {["move" := PyFloat 2]} "move" move_spec
              (PyFloat 2) 2) as (e & Hraise & Hclass).
  - reflexivity.
  - reflexivity.
  - reflexivity.
  - discriminate.
  - right. exists 1. split; reflexivity.
  - exists e. split; [exact Hraise |]. apply Hclass.
    intros name spec raw Hs Hg.
    apply lookup_singleton_Some in Hg as [_ <-]. by eexists.
Defined.

Lemma core_act_move :
  core_act (single_action "move" move_spec) 2 ∅ ∅ (Input "deterministic")
  = Ok ({["move" := Fill [2%Z; 3%Z] (Constant (Num (0 + (1 # 2) * (1 - 0))) "float")]},
        ∅).
Proof. vm_compute. reflexivity. Qed.

Lemma core_act_returns_the_actions_of_the_spec_witness :
  (∅ : gmap string Tensor) = ∅
  /\ forall name : string,
       is_Some (({["move" := Fill [2%Z; 3%Z]
                     (Constant (Num (0 + (1 # 2) * (1 - 0))) "float")]}
                 : gmap string Tensor) !! name)
       <-> is_Some (actions_spec (single_action "move" move_spec) !! name).
Proof.
  exact (core_act_returns_the_actions_of_the_spec (single_action "move" move_spec)
           2 ∅ ∅ (Input "deterministic") _ _ core_act_move).
Defined.

Lemma core_act_returns_only_if_witness :
  size (∅ : gmap string Tensor) = 0%nat
  /\ (forall (name : string) spec lo hi,
        actions_spec (single_action "move" move_spec) !! name = Some spec ->
        type spec <> "bool" ->
        min_value spec = Some lo -> max_value spec = Some hi ->
        type spec = "float").
Proof.
  destruct (core_act_returns_only_if (single_action "move" move_spec)
              2 ∅ ∅ (Input "deterministic")
              (ex_intro _ _ core_act_move)) as (Hsize & _ & Hfloat).
  split; [exact Hsize |].
  intros name spec lo hi Hs Hty Hlo Hhi.
  apply (Hfloat name spec lo hi Hs); [apply lookup_empty | reflexivity | done..].
Defined.

Lemma core_act_action_by_bounds_witness :
  ({["move" := Fill [2%Z; 3%Z] (Constant (Num (0 + (1 # 2) * (1 - 0))) "float")]}
   : gmap string Tensor) !! "move"
  = Some (Fill [2%Z; 3%Z] (Constant (Num (0 + (1 # 2) * (1 - 0))) "float")).
Proof.
  destruct (core_act_action_by_bounds (single_action "move" move_spec)
              2 ∅ ∅ (Input "deterministic") _ _ "move" move_spec
              core_act_move eq_refl eq_refl eq_refl) as (_ & Hnum & _).
  destruct Hnum as [_ Hact]; [discriminate | exact Hact].
Defined.

Lemma core_act_move_half :
  core_act
    (mkConstantModel {["move" := move_spec]} {["move" := Num (1 # 2)]} (mkConfig true))
    2 ∅ ∅ (Input "deterministic")
  = Ok ({["move" := Fill [2%Z; 3%Z] (Constant (Num (1 # 2)) "float")]}, ∅).
Proof. vm_compute. reflexivity. Qed.

Lemma core_act_returns_the_given_value_witness :
  exists v,
    to_float move_spec (PyFloat (1 # 2)) = Ok v
    /\ ({["move" := Fill [2%Z; 3%Z] (Constant (Num (1 # 2)) "float")]}
        : gmap string Tensor) !! "move"
       = Some (Fill [2%Z; 3%Z] (Constant v "float"))
    /\ (type move_spec <> "bool" -> forall q, v = Num q ->
        (forall lo, min_value move_spec = Some lo -> lo <= q)
        /\ (forall hi, max_value move_spec = Some hi -> q <= hi)).
Proof.
  exact (core_act_returns_the_given_value to_float {["move" := move_spec]}
           (mkConfig true) {["move" := PyFloat (1 # 2); "jump" := PyFloat 5]} _
           2 ∅ ∅ (Input "deterministic") _ _ "move" move_spec (PyFloat (1 # 2))
           init_move_half core_act_move_half eq_refl eq_refl).
Defined.

End ConstantModelAct.

(** ** trpo.py: the critic *)

Module TrustRegionPolicyOptimizationCritic.
Import TrustRegionPolicyOptimization.




End TrustRegionPolicyOptimizationCritic.

(** ** internal_rnn.py: the two subclasses, and the state spec *)

Module InternalRnnCells.
Import Core InternalRnn.

(** What a function leaves: its value, or the name of a local it read
    before any assignment to it ([UnboundLocalError]). *)
Inductive Outcome (A : Type) : Type :=
| Returned (a : A)
| UnboundLocal (name : string).
Arguments Returned {A} a.
Arguments UnboundLocal {A} name.

#[local] Arguments layer {Layer Cell} _.
#[local] Arguments cell_type {Layer Cell} _.

Section Cells.

Variable Layer : Type.
Variable Cell : Type.
Variable Kwargs : Type.
Variable super_init : SuperArgs -> Result Layer.
Variable self_size : Layer -> Z.
Variable GRUCell : forall (units : Value) (name : string), Kwargs -> Result Cell.
Variable LSTMCell : forall (units : Value) (name : string), Kwargs -> Result Cell.

(** [super().internals_spec] *)
Variable super_internals_spec : Layer -> gmap string TensorSpec.

(** ['cell' in kwargs] *)
Variable has_cell : Kwargs -> bool.

(** What Python raises for [f(cell=..., **kwargs)] when [kwargs] has a
    key ['cell'] too. *)
Definition multiple_values_for_cell : Exc :=
  mkExc TypeError
    [PyStr "__init__() got multiple values for keyword argument 'cell'"].

(** [InternalRnn.__init__] with these parents and cells *)
Definition InternalRnn_init :=
  InternalRnn.__init__ super_init (fun l => PyInt (self_size l)) GRUCell LSTMCell.

(** [InternalGru.__init__]: the call [super().__init__(cell='gru', ...,
    **kwargs)] fails before the parent's constructor runs when [kwargs]
    has a key ['cell']. *)
Definition InternalGru_init
    (size horizon bias activation dropout vars_trainable summary_labels
     l2_regularization name input_spec : Value) (kwargs : Kwargs)
  : Result (InternalRnn Layer Cell) :=
  if has_cell kwargs then Raise multiple_values_for_cell
  else
    InternalRnn_init (PyStr "gru") size horizon bias activation dropout
      vars_trainable summary_labels l2_regularization name input_spec kwargs.

(** [InternalLstm.__init__], with [cell='lstm'] likewise. *)
Definition InternalLstm_init
    (size horizon bias activation dropout vars_trainable summary_labels
     l2_regularization name input_spec : Value) (kwargs : Kwargs)
  : Result (InternalRnn Layer Cell) :=
  if has_cell kwargs then Raise multiple_values_for_cell
  else
    InternalRnn_init (PyStr "lstm") size horizon bias activation dropout
      vars_trainable summary_labels l2_regularization name input_spec kwargs.

(** [InternalRnn.internals_spec]: the local [shape] is assigned in the
    two branches only. *)
Definition internals_spec (self : InternalRnn Layer Cell)
  : Outcome (gmap string TensorSpec) :=
  let internals_spec := super_internals_spec (layer self) in
  let shape :=
    if eq_str (cell_type self) "gru" then Some [self_size (layer self)]
    else if eq_str (cell_type self) "lstm" then Some [2%Z; self_size (layer self)]
    else None in
  match shape with
  | Some shape =>
      Returned (<["state" := mkTensorSpec "float" shape None None None]> internals_spec)
  | None => UnboundLocal "shape"
  end.

(** X15. The constructors of [InternalGru] and [InternalLstm] never raise
    the [TensorforceError] for the cell.  Given a keyword argument ['cell']
    they raise a [TypeError], the parent's constructor getting the
    argument twice.  Otherwise what they raise was raised by the parents'
    constructor or by the Keras cell constructor, and the layer they
    return has the cell type ['gru'], respectively ['lstm']. *)
Theorem subclass_init_never_rejects_cell
    size horizon bias activation dropout vars_trainable summary_labels
    l2_regularization name input_spec kwargs :
  let args := mkSuperArgs "iterative" horizon size bias activation dropout
                vars_trainable summary_labels l2_regularization name input_spec in
  let gru := InternalGru_init size horizon bias activation dropout vars_trainable
               summary_labels l2_regularization name input_spec kwargs in
  let lstm := InternalLstm_init size horizon bias activation dropout vars_trainable
                summary_labels l2_regularization name input_spec kwargs in
  (has_cell kwargs = true ->
     gru = Raise multiple_values_for_cell
     /\ lstm = Raise multiple_values_for_cell
     /\ exc_class multiple_values_for_cell = TypeError)
  /\ (has_cell kwargs = false ->
      (forall e, gru = Raise e ->
         super_init args = Raise e
         \/ exists self, super_init args = Ok self
              /\ GRUCell (PyInt (self_size self)) "cell" kwargs = Raise e)
      /\ (forall e, lstm = Raise e ->
            super_init args = Raise e
            \/ exists self, super_init args = Ok self
                 /\ LSTMCell (PyInt (self_size self)) "cell" kwargs = Raise e))
  /\ (forall l, gru = Ok l -> cell_type l = PyStr "gru")
  /\ (forall l, lstm = Ok l -> cell_type l = PyStr "lstm").
Proof.
  intros args gru lstm. subst gru lstm.
  unfold InternalGru_init, InternalLstm_init, InternalRnn_init, InternalRnn.__init__.
  fold args. destruct (has_cell kwargs).
  { split; [done |]. split; [done |]. split; intros l Hl; discriminate Hl. }
  split; [done |].
  destruct (super_init args) as [self | e0]; simpl.
  - destruct (GRUCell (PyInt (self_size self)) "cell" kwargs) as [c | e1] eqn:Eg;
      destruct (LSTMCell (PyInt (self_size self)) "cell" kwargs) as [c' | e2] eqn:El;
      simpl; repeat split; try (intros _; split); intros x Hx;
      try discriminate Hx; injection Hx as <-; eauto.
  - repeat split; try (intros _; split); intros x Hx;
      try discriminate Hx; injection Hx as <-; eauto.
Qed.

(** X16. On every layer that [InternalRnn.__init__] returns,
    [internals_spec] finds its local [shape] assigned: it adds the float
    spec ['state'] of shape [(size,)] for a GRU and [(2, size)] for an
    LSTM to the internals spec of the parent. *)
Theorem internals_spec_of_constructed_layer
    cell size horizon bias activation dropout vars_trainable summary_labels
    l2_regularization name input_spec kwargs self :
  InternalRnn_init cell size horizon bias activation dropout vars_trainable
    summary_labels l2_regularization name input_spec kwargs = Ok self ->
  exists shape,
    internals_spec self
    = Returned (<["state" := mkTensorSpec "float" shape None None None]>
                  (super_internals_spec (layer self)))
    /\ (cell = PyStr "gru" /\ shape = [self_size (layer self)]
        \/ cell = PyStr "lstm" /\ shape = [2%Z; self_size (layer self)]).
Proof.
  unfold InternalRnn_init, InternalRnn.__init__. intros H.
  destruct (super_init _) as [l | e]; simpl in H; [| done].
  destruct (eq_str cell "gru") eqn:Egru.
  - apply eq_str_true in Egru as ->.
    destruct (GRUCell _ _ _) as [c |]; simpl in H; [| done].
    injection H as <-. eexists. split; [reflexivity |]. by left.
  - destruct (eq_str cell "lstm") eqn:Elstm; [| done].
    apply eq_str_true in Elstm as ->.
    destruct (LSTMCell _ _ _) as [c |]; simpl in H; [| done].
    injection H as <-. eexists. split; [reflexivity |]. by right.
Qed.

End Cells.

(** [InternalGru(size=8, horizon=1, cell='lstm')] raises the [TypeError];
    without the keyword argument it returns a GRU layer. *)
Example internal_gru_given_cell :
  InternalGru_init Z (string * Value) unit (fun _ => Ok 8%Z) id
    (plain_cell "GRUCell") (plain_cell "LSTMCell") (fun _ => true)
    (PyInt 8) (PyInt 1) (PyBool false) PyNone (PyFloat 0) (PyBool true)
    PyNone PyNone PyNone PyNone tt
  = Raise multiple_values_for_cell
  /\ InternalGru_init Z (string * Value) unit (fun _ => Ok 8%Z) id
       (plain_cell "GRUCell") (plain_cell "LSTMCell") (fun _ => false)
       (PyInt 8) (PyInt 1) (PyBool false) PyNone (PyFloat 0) (PyBool true)
       PyNone PyNone PyNone PyNone tt
     = Ok (mkInternalRnn 8%Z (PyStr "gru") ("GRUCell", PyInt 8)).
Proof. split; reflexivity. Qed.

Lemma internals_spec_of_constructed_layer_witness :
  exists shape,
    internals_spec Z (string * Value) id (fun _ => ∅)
      (mkInternalRnn 8%Z (PyStr "lstm") ("LSTMCell", PyInt 8))
    = Returned (<["state" := mkTensorSpec "float" shape None None None]> ∅)
    /\ (PyStr "lstm" = PyStr "gru" /\ shape = [8%Z]
        \/ PyStr "lstm" = PyStr "lstm" /\ shape = [2%Z; 8%Z]).
Proof.
  exact (internals_spec_of_constructed_layer Z (string * Value) unit
           (fun _ => Ok 8%Z) id (plain_cell "GRUCell") (plain_cell "LSTMCell")
           (fun _ => ∅)
           (PyStr "lstm") (PyInt 8) (PyInt 1) (PyBool false) PyNone (PyFloat 0)
           (PyBool true) PyNone PyNone PyNone PyNone tt
           (mkInternalRnn 8%Z (PyStr "lstm") ("LSTMCell", PyInt 8)) eq_refl).
Defined.

End InternalRnnCells.

(** ** distribution.py: the input signatures *)

Module DistributionSignature.
Import Core Distribution.

#[local] Arguments action_spec {ModuleState Specs} _.
#[local] Arguments input_spec {ModuleState Specs} _.
#[local] Arguments parameters_spec {ModuleState Specs} _.

(** The name of each capability method, and the [num_args] its
    [tf_function] decorator declares. *)
Definition method_name (c : Capability) : string :=
  match c with
  | Parametrize => "parametrize"
  | Sample => "sample"
  | LogProbability => "log_probability"
  | Entropy => "entropy"
  | KlDivergence => "kl_divergence"
  | StatesValue => "states_value"
  | ActionValue => "action_value"
  end.

Definition num_args (c : Capability) : nat :=
  match c with
  | Parametrize => 1
  | Sample => 2
  | LogProbability => 2
  | Entropy => 1
  | KlDivergence => 2
  | StatesValue => 1
  | ActionValue => 2
  end.

Section Signature.

Variable World ModuleState Specs : Type.

(** Signatures, [spec.signature(batched=...)] of the specs, and the
    parent's [input_signature]. *)
Variable Signature : Type.
Variable signature : Specs -> bool -> Signature.
Variable tensor_signature : TensorSpec -> bool -> Signature.
Variable super_input_signature : string -> Result (list Signature).

(** [spec.signature(batched=batched)] on an attribute that may be [None] *)
Definition signature_of {S} (sig : S -> bool -> Signature) (spec : option S)
    (batched : bool) : Result Signature :=
  match spec with
  | Some s => Ok (sig s batched)
  | None => Raise (mkExc AttributeError [])
  end.

(** [Distribution.input_signature] *)
Definition input_signature (self : Distribution ModuleState Specs) (function : string)
  : Result (list Signature) :=
  if String.eqb function "action_value" then
    do p <- signature_of signature (parameters_spec self) true;
    do a <- signature_of signature (action_spec self) true;
    Ok [p; a]
  else if String.eqb function "entropy" then
    do p <- signature_of signature (parameters_spec self) true;
    Ok [p]
  else if String.eqb function "kl_divergence" then
    do p1 <- signature_of signature (parameters_spec self) true;
    do p2 <- signature_of signature (parameters_spec self) true;
    Ok [p1; p2]
  else if String.eqb function "log_probability" then
    do p <- signature_of signature (parameters_spec self) true;
    do a <- signature_of signature (action_spec self) true;
    Ok [p; a]
  else if String.eqb function "parametrize" then
    do x <- signature_of tensor_signature (input_spec self) true;
    Ok [x]
  else if String.eqb function "sample" then
    do p <- signature_of signature (parameters_spec self) true;
    Ok [p; tensor_signature (mkTensorSpec "float" [] None None None) false]
  else if String.eqb function "states_value" then
    do p <- signature_of signature (parameters_spec self) true;
    Ok [p]
  else
    super_input_signature function.

(** X17. For a distribution that has its three specs, the input signature
    of every capability method has as many entries as the [num_args] the
    method declares; any other function name goes to the parent. *)
Theorem input_signature_matches_num_args
    (m : ModuleState) (actions parameters : Specs) (input : TensorSpec) :
  let self := mkDistribution m (Some actions) (Some input) (Some parameters) in
  (forall c, exists sigs,
     input_signature self (method_name c) = Ok sigs /\ length sigs = num_args c)
  /\ (forall function,
        (forall c, function <> method_name c) ->
        input_signature self function = super_input_signature function).
Proof.
  intros self. split.
  - intros c. destruct c; eexists; (split; [reflexivity | reflexivity]).
  - intros function Hne. unfold input_signature.
    pose proof (Hne ActionValue) as H1. pose proof (Hne Entropy) as H2.
    pose proof (Hne KlDivergence) as H3. pose proof (Hne LogProbability) as H4.
    pose proof (Hne Parametrize) as H5. pose proof (Hne Sample) as H6.
    pose proof (Hne StatesValue) as H7. simpl in *.
    apply String.eqb_neq in H1, H2, H3, H4, H5, H6, H7.
    by rewrite H1, H2, H3, H4, H5, H6, H7.
Qed.

(** X18. On every distribution that [Distribution.__init__] returns, the
    input signature of [parametrize] is there, and it is the batched
    signature of a spec of type ['float']. *)
Theorem parametrize_signature_of_constructed_distribution
    (Module_init : Value -> Q -> Value -> World -> Result ModuleState * World)
    summary_labels name actions input parameters w self w' :
  __init__ Module_init summary_labels name actions input parameters w = (Ok self, w') ->
  exists spec,
    input_spec self = Some spec
    /\ type spec = "float"
    /\ input_signature self "parametrize" = Ok [tensor_signature spec true].
Proof.
  unfold __init__. intros H.
  destruct input as [spec |]; [| done].
  destruct (String.eqb_spec (type spec) "float") as [Hty | Hty]; [| done].
  destruct (Module_init summary_labels 0%Q name w) as [[m | e] w1]; [| done].
  injection H as <- <-. by exists spec.
Qed.

End Signature.

Lemma parametrize_signature_of_constructed_distribution_witness :
  exists spec,
    input_spec (mkDistribution tt (None : option unit)
                  (Some (mkTensorSpec "float" [4%Z] None None None)) None)
    = Some spec
    /\ type spec = "float"
    /\ input_signature unit unit (TensorSpec * bool) (fun _ b => (mkTensorSpec "" [] None None None, b))
         pair (fun _ => Ok [])
         (mkDistribution tt None (Some (mkTensorSpec "float" [4%Z] None None None)) None)
         "parametrize"
       = Ok [(spec, true)].
Proof.
  exact (parametrize_signature_of_constructed_distribution (list string) unit unit
           (TensorSpec * bool) (fun _ b => (mkTensorSpec "" [] None None None, b))
           pair (fun _ => Ok [])
           logging_Module_init PyNone PyNone None
           (Some (mkTensorSpec "float" [4%Z] None None None)) None []
           _ _ eq_refl).
Defined.

End DistributionSignature.
